(** * JSSpeccy 3 worker: the control layer around the emulator core

    A shallow embedding of [src/runtime/worker.js].  The worker closes
    over an opaque WebAssembly core; everything the worker does to that
    core is either a call of one of its exports or a store through a
    typed-array view of its memory.  Both are recorded, in program order,
    in an action log, so that statements about what is written, and in
    which order, are statements about that log. *)

From Stdlib Require Import ZArith Lia.
From stdpp Require Import base list.

Local Open Scope Z_scope.

(** ** Typed arrays *)

(** A [Uint8Array] (and an [ArrayBuffer] seen through one) is the list of
    its bytes; a [Uint16Array] the list of its 16-bit elements. *)
Abbreviation bytes := (list Z).

(** [a[i]] on a typed array of numbers used in an integer context: an
    index out of range reads [undefined], which the bit operators take
    for 0. *)
Definition typed_get (a : list Z) (i : nat) : Z := default 0 (a !! i).

(** [a[i] = v] on a [Uint16Array]: the value is stored modulo 2^16; a
    store out of range is ignored. *)
Definition u16_set (a : list Z) (i : nat) (v : Z) : list Z :=
  <[i := v mod 65536]> a.

(** What [new Uint16Array(buffer, offset, n)] guarantees of its contents:
    [n] elements, each below 2^16. *)
Definition is_Uint16Array (n : nat) (a : list Z) : bool :=
  (length a =? n)%nat && forallb (fun v => (0 <=? v) && (v <? 65536)) a.

(** [target.set(source, offset)]: [None] stands for the [RangeError]
    raised when the source does not fit. *)
Definition typed_set (target source : bytes) (offset : Z) : option bytes :=
  if (offset <? 0) || (Z.of_nat (length target) <? offset + Z.of_nat (length source))
  then None
  else Some (take (Z.to_nat offset) target ++ source
             ++ drop (Z.to_nat offset + length source) target).

(** A view created by [subarray]: first element and length, fixed at
    creation; its contents are read from the underlying array on use. *)
Record View := { byteOffset : nat; viewLength : nat }.

Definition clamp_index (len i : Z) : Z :=
  if i <? 0 then Z.max (len + i) 0 else Z.min i len.

(** [a.subarray(begin, end)] on an array of [len] elements. *)
Definition subarray (len : nat) (begin end_ : Z) : View :=
  let b := clamp_index (Z.of_nat len) begin in
  let e := clamp_index (Z.of_nat len) end_ in
  {| byteOffset := Z.to_nat b; viewLength := Z.to_nat (Z.max (e - b) 0) |}.

Definition view_read (v : View) (a : bytes) : bytes :=
  take (viewLength v) (drop (byteOffset v) a).

(** ** The core as the worker sees it *)

(** Calls of the core's exports, and stores through the worker's views of
    its memory. *)
Inductive Action :=
| SetMachineType (model : Z)
| Poke (addr byte : Z)
| SetPC (pc : Z)
| SetIFF1 (v : Z)
| SetIFF2 (v : Z)
| SetIM (v : Z)
| SetHalted (h : bool)
| WritePort (port v : Z)
| SetTStates (t : Z)
| SetAudioSamplesPerFrame (n : Z)
| RunFrame
| ResumeFrame
| KeyDown (row mask : Z)
| KeyUp (row mask : Z)
| Reset
| MemorySet (offset : Z) (data : bytes)     (* memoryData.set(data, offset) *)
| RegisterWrite (i : nat) (v : Z).          (* registerPairs[i] = v *)

(** [memoryData] is the byte view of [core.memory.buffer];
    [registerPairs] is the 12-element [Uint16Array] at [core.REGISTERS].
    Both view the same buffer.  The model keeps the register view as a
    component of its own, which the worker reads and writes through that
    view alone, and [memoryData] holds the image as [runFrame] or
    [resumeFrame] last left it, with the pages stored since.  What a
    store to a register pair or a call of the core ([poke], [setPC],
    ...) does to the bytes of the image is the core's side of the
    buffer: it is in the log, and shows in [memoryData] with the next
    [runFrame] or [resumeFrame], which are given the log.  Accordingly the
    theorems on the worker speak of the bytes of [memoryData] only where
    the last thing that happened to the image is a [runFrame], a
    [resumeFrame] or the store of a page; and, as a page may cover the
    register file, of the register pairs after the store of a page only
    once all twelve have been stored anew. *)
Record Core := {
  memoryData : bytes;
  registerPairs : list Z;
  actions : list Action;
}.

Definition log (a : Action) (c : Core) : Core :=
  {| memoryData := memoryData c;
     registerPairs := registerPairs c;
     actions := actions c ++ [a] |}.

(** [core.poke(addr, byte)] and [core.setPC(pc)]: the calls are logged;
    what they do inside the core is not the worker's to see. *)
Definition core_poke (addr byte : Z) : Core -> Core := log (Poke addr byte).
Definition core_setPC (pc : Z) : Core -> Core := log (SetPC pc).

(** [registerPairs[i] = v]: the store through the register view, logged
    with the value the array keeps. *)
Definition set_registerPair (i : nat) (v : Z) (c : Core) : Core :=
  {| memoryData := memoryData c;
     registerPairs := u16_set (registerPairs c) i v;
     actions := actions c ++ [RegisterWrite i (v mod 65536)] |}.

(** ** The fast tape loader *)

(** The [while (loadedBytes < requestedLength)] loop of [trapTapeLoad].
    [remaining] is [requestedLength - loadedBytes]; the loop condition
    holds exactly when it is not zero.  [block !! offset = None] is
    [offset >= block.length].  The result is [success], [offset],
    [checksum] and the core after the pokes. *)
Fixpoint copyBlock (remaining : nat) (block : bytes) (offset : nat)
    (addr checksum : Z) (c : Core) : bool * nat * Z * Core :=
  match remaining with
  | O => (true, offset, checksum, c)
  | S remaining' =>
      match block !! offset with
      | None => (false, offset, checksum, c)      (* out of bytes: break *)
      | Some byte =>
          copyBlock remaining' block (S offset)
            (Z.land (addr + 1) 0xffff) (Z.lxor checksum byte)
            (core_poke addr byte c)
      end
  end.

(** The body of [trapTapeLoad] once a block has been obtained. *)
Definition loadBlock (block : bytes) (c : Core) : Core :=
  let af_ := typed_get (registerPairs c) 4 in
  let expectedBlockType := Z.shiftr af_ 8 in
  let shouldLoad := Z.land af_ 0x0001 in
  let addr := typed_get (registerPairs c) 8 in             (* IX *)
  let requestedLength := typed_get (registerPairs c) 2 in  (* DE *)
  let '(success, c1) :=
    match block !! 0%nat with
    | None => (false, c)            (* undefined != expectedBlockType *)
    | Some actualBlockType =>
        if negb (expectedBlockType =? actualBlockType) then (false, c)
        else if negb (shouldLoad =? 0) then
          let '(success, offset, checksum, c1) :=
            copyBlock (Z.to_nat requestedLength) block 1 addr actualBlockType c in
          let success := success && (offset <? length block)%nat in
          if success then
            match block !! offset with
            | Some expectedChecksum => (checksum =? expectedChecksum, c1)
            | None => (false, c1)
            end
          else (false, c1)
        else (true, c)               (* VERIFY *)
    end in
  let c2 :=
    if success
    then set_registerPair 0 (Z.lor (typed_get (registerPairs c1) 0) 0x0001) c1
    else set_registerPair 0 (Z.land (typed_get (registerPairs c1) 0) 0xfffe) c1 in
  core_setPC 0x05e2 c2.

(** ** Exceptions *)

Inductive Exn :=
| RangeError
| UnrecognisedOpcode                 (* throw("Unrecognised opcode!") *)
| UnexpectedResult (status : Z).     (* throw("runFrame returned unexpected result: " + status) *)

Inductive Outcome := Returned | Threw (e : Exn).

(** A statement that acts on the core and may throw; what it did before
    throwing stays done. *)
Definition Step := Core -> Core * Outcome.

Definition skip : Step := fun c => (c, Returned).
Definition call (a : Action) : Step := fun c => (log a c, Returned).
Definition store (f : Core -> Core) : Step := fun c => (f c, Returned).

Definition andThen (f g : Step) : Step :=
  fun c => match f c with
           | (c', Returned) => g c'
           | (c', Threw e) => (c', Threw e)
           end.

Notation "f >>> g" := (andThen f g) (at level 60, right associativity).

Fixpoint forEach {A} (f : A -> Step) (l : list A) : Step :=
  match l with
  | [] => skip
  | x :: l' => f x >>> forEach f l'
  end.

(** ** Snapshots *)

Inductive RegisterName := AF | BC | DE | HL | AF_ | BC_ | DE_ | HL_ | IX | IY | SP | IR.

Definition registerNames : list RegisterName :=
  [AF; BC; DE; HL; AF_; BC_; DE_; HL_; IX; IY; SP; IR].

Record Registers := {
  pair : RegisterName -> Z;        (* snapshot.registers[r] *)
  PC : Z;
  iff1 : Z;
  iff2 : Z;
  im : Z;
}.

Record UlaState := { borderColour : Z; pagingFlags : Z }.

(** [memoryPages] lists the own properties of [snapshot.memoryPages] in
    the order [for ... in] visits them. *)
Record Snapshot := {
  model : Z;
  memoryPages : list (Z * bytes);
  registers : Registers;
  halted : bool;                   (* !!snapshot.halted *)
  ulaState : UlaState;
  tstates : Z;
}.

(** ** Messages *)

Record FrameRequest := {
  frameBuffer : bytes;
  audioBuffers : option (bytes * bytes);   (* audioBufferLeft, audioBufferRight *)
}.

Inductive Message :=
| MsgRunFrame (req : FrameRequest)
| MsgKeyDown (row mask : Z)
| MsgKeyUp (row mask : Z)
| MsgSetMachineType (type : Z)
| MsgReset
| MsgLoadMemory (page : Z) (data : bytes)
| MsgLoadSnapshot (snapshot : Snapshot)
| MsgOpenTAPFile (data : bytes)
| MsgOpenTZXFile (data : bytes)
| MsgOpenTRDFile (data : bytes)
| MsgOther.

Inductive Posted :=
| Ready
| FrameCompleted (frameBuffer : bytes) (audio : option (bytes * bytes)).

(** [new Float32Array(buffer, byteOffset, n)], read as the bytes it
    covers.  Copies between two [Float32Array]s move the bytes unchanged,
    so the audio buffers are handled as bytes, four to a sample. *)
Definition f32_region (buffer : bytes) (byteOffset n : Z) : option bytes :=
  if negb (byteOffset mod 4 =? 0) || (byteOffset <? 0)
     || (Z.of_nat (length buffer) <? byteOffset + 4 * n)
  then None
  else Some (take (Z.to_nat (4 * n)) (drop (Z.to_nat byteOffset) buffer)).

(** [new Float32Array(buffer)] *)
Definition f32_whole (buffer : bytes) : option bytes :=
  if Z.of_nat (length buffer) mod 4 =? 0 then Some buffer else None.

(** ** The worker *)

(** What [worker.js] takes from elsewhere: a constant of [constants.js],
    the tape classes of [tape.js], and the exports of the core it is run
    with.  None of them is defined in [worker.js]; the worker is
    parametrised by them.  [getNextLoadableBlock] returns the block, if any, and the
    tape object after the call.  [core_runFrame] and [core_resumeFrame]
    give the status returned and the memory image and register pairs the
    call leaves, as a function of everything the core has been told so
    far. *)
Record Imports {Tape : Type} := {
  FRAME_BUFFER_SIZE : Z;
  getNextLoadableBlock : Tape -> option bytes * Tape;
  TAPFile : bytes -> Tape;
  TZXFile : bytes -> Tape;
  FRAME_BUFFER : Z;
  MACHINE_MEMORY : Z;
  AUDIO_BUFFER_LEFT : Z;
  AUDIO_BUFFER_RIGHT : Z;
  core_runFrame : Core -> Z * bytes * list Z;
  core_resumeFrame : Core -> Z * bytes * list Z;
}.
Arguments Imports : clear implicits.

Section Worker.

Context {Tape : Type} (env : Imports Tape).

Record Worker := {
  core : Core;
  workerFrameData : View;
  trdosDisk : bytes;
  stopped : bool;
  tape : option Tape;
  posted : list Posted;          (* postMessage, oldest first *)
}.

Definition with_core (c : Core) (w : Worker) : Worker :=
  {| core := c; workerFrameData := workerFrameData w; trdosDisk := trdosDisk w;
     stopped := stopped w; tape := tape w; posted := posted w |}.

Definition with_tape (t : option Tape) (w : Worker) : Worker :=
  {| core := core w; workerFrameData := workerFrameData w; trdosDisk := trdosDisk w;
     stopped := stopped w; tape := t; posted := posted w |}.

Definition with_stopped (b : bool) (w : Worker) : Worker :=
  {| core := core w; workerFrameData := workerFrameData w; trdosDisk := trdosDisk w;
     stopped := b; tape := tape w; posted := posted w |}.

Definition with_trdosDisk (d : bytes) (w : Worker) : Worker :=
  {| core := core w; workerFrameData := workerFrameData w; trdosDisk := d;
     stopped := stopped w; tape := tape w; posted := posted w |}.

Definition postMessage (m : Posted) (w : Worker) : Worker :=
  {| core := core w; workerFrameData := workerFrameData w; trdosDisk := trdosDisk w;
     stopped := stopped w; tape := tape w; posted := posted w ++ [m] |}.

Definition loadMemoryPage (page : Z) (data : bytes) : Step := fun c =>
  let offset := MACHINE_MEMORY env + page * 0x4000 in
  match typed_set (memoryData c) data offset with
  | None => (c, Threw RangeError)
  | Some m =>
      ({| memoryData := m; registerPairs := registerPairs c;
          actions := actions c ++ [MemorySet offset data] |}, Returned)
  end.

Definition loadSnapshot (snapshot : Snapshot) : Step :=
  call (SetMachineType (model snapshot)) >>>
  forEach (fun '(page, data) => loadMemoryPage page data) (memoryPages snapshot) >>>
  forEach (fun '(i, r) => store (set_registerPair i (pair (registers snapshot) r)))
          (imap (fun i r => (i, r)) registerNames) >>>
  call (SetPC (PC (registers snapshot))) >>>
  call (SetIFF1 (iff1 (registers snapshot))) >>>
  call (SetIFF2 (iff2 (registers snapshot))) >>>
  call (SetIM (im (registers snapshot))) >>>
  call (SetHalted (halted snapshot)) >>>
  call (WritePort 0x00fe (borderColour (ulaState snapshot))) >>>
  (if negb (model snapshot =? 48)
   then call (WritePort 0x7ffd (pagingFlags (ulaState snapshot)))
   else skip) >>>
  call (SetTStates (tstates snapshot)).

Definition trapTapeLoad (w : Worker) : Worker :=
  match tape w with
  | None => w
  | Some t =>
      let '(next, t') := getNextLoadableBlock env t in
      match next with
      | None => with_tape (Some t') w
      | Some block => with_core (loadBlock block (core w)) (with_tape (Some t') w)
      end
  end.

(** A call of [core.runFrame] or [core.resumeFrame]. *)
Definition engine (a : Action) (f : Core -> Z * bytes * list Z) (w : Worker)
    : Z * Worker :=
  let '(status, m, r) := f (core w) in
  (status, with_core {| memoryData := m; registerPairs := r;
                        actions := actions (core w) ++ [a] |} w).

(** The [while (status)] loop of the [runFrame] case.  [fuel] bounds
    the number of tape traps handled; [None] means that more were hit. *)
Fixpoint frameLoop (fuel : nat) (status : Z) (w : Worker) : option (Worker * Outcome) :=
  if status =? 0 then Some (w, Returned)
  else if status =? 1 then Some (with_stopped true w, Threw UnrecognisedOpcode)
  else if status =? 2 then
    match fuel with
    | O => None
    | S fuel' =>
        let '(status', w') := engine ResumeFrame (core_resumeFrame env) (trapTapeLoad w) in
        frameLoop fuel' status' w'
    end
  else Some (with_stopped true w, Threw (UnexpectedResult status)).

(** The two audio copies; [None] is a [RangeError] from one of the
    constructors or from [set]. *)
Definition copyAudio (mem audioBufferLeft audioBufferRight : bytes)
    : option (bytes * bytes) :=
  let audioLength := Z.of_nat (length audioBufferLeft) / 4 in
  leftSource ← f32_region mem (AUDIO_BUFFER_LEFT env) audioLength;
  rightSource ← f32_region mem (AUDIO_BUFFER_RIGHT env) audioLength;
  leftData ← f32_whole audioBufferLeft;
  rightData ← f32_whole audioBufferRight;
  left ← typed_set leftData leftSource 0;
  right ← typed_set rightData rightSource 0;
  Some (left, right).

(** The [runFrame] case after the loop. *)
Definition completeFrame (req : FrameRequest) (w : Worker) : Worker * Outcome :=
  match typed_set (frameBuffer req)
                  (view_read (workerFrameData w) (memoryData (core w))) 0 with
  | None => (w, Threw RangeError)
  | Some frameData =>
      match audioBuffers req with
      | Some (l, r) =>
          if negb (length l =? 0)%nat then
            match copyAudio (memoryData (core w)) l r with
            | None => (w, Threw RangeError)
            | Some audio => (postMessage (FrameCompleted frameData (Some audio)) w, Returned)
            end
          else (postMessage (FrameCompleted frameData None) w, Returned)
      | None => (postMessage (FrameCompleted frameData None) w, Returned)
      end
  end.

Definition handleRunFrame (fuel : nat) (req : FrameRequest) (w : Worker)
    : option (Worker * Outcome) :=
  if stopped w then Some (w, Returned)
  else
    let audioLength :=
      match audioBuffers req with
      | Some (l, _) => Z.of_nat (length l) / 4
      | None => 0
      end in
    let w1 := with_core (log (SetAudioSamplesPerFrame audioLength) (core w)) w in
    let '(status, w2) := engine RunFrame (core_runFrame env) w1 in
    match frameLoop fuel status w2 with
    | None => None
    | Some (w3, Threw e) => Some (w3, Threw e)
    | Some (w3, Returned) => Some (completeFrame req w3)
    end.

Definition on_core (s : Step) (w : Worker) : Worker * Outcome :=
  let '(c, o) := s (core w) in (with_core c w, o).

Definition onmessage (fuel : nat) (m : Message) (w : Worker) : option (Worker * Outcome) :=
  match m with
  | MsgRunFrame req => handleRunFrame fuel req w
  | MsgKeyDown row mask => Some (on_core (call (KeyDown row mask)) w)
  | MsgKeyUp row mask => Some (on_core (call (KeyUp row mask)) w)
  | MsgSetMachineType type => Some (on_core (call (SetMachineType type)) w)
  | MsgReset => Some (on_core (call Reset) w)
  | MsgLoadMemory page data => Some (on_core (loadMemoryPage page data) w)
  | MsgLoadSnapshot snapshot => Some (on_core (loadSnapshot snapshot) w)
  | MsgOpenTAPFile data => Some (with_tape (Some (TAPFile env data)) w, Returned)
  | MsgOpenTZXFile data => Some (with_tape (Some (TZXFile env data)) w, Returned)
  | MsgOpenTRDFile data =>
      let trdBufferLength := Z.to_nat (Z.min 0xa0000 (Z.of_nat (length data))) in
      Some (with_trdosDisk (take trdBufferLength data ++ drop trdBufferLength (trdosDisk w)) w,
            Returned)
  | MsgOther => Some (w, Returned)
  end.

(** The messages of a queue, handled one after the other; an exception
    ends the handling of its message only. *)
Fixpoint process (fuel : nat) (ms : list Message) (w : Worker) : option Worker :=
  match ms with
  | [] => Some w
  | m :: ms' =>
      match onmessage fuel m w with
      | None => None
      | Some (w', _) => process fuel ms' w'
      end
  end.

(** [run(core)] up to the installation of the handler. *)
Definition run (c : Core) : Worker :=
  {| core := c;
     workerFrameData := subarray (length (memoryData c)) (FRAME_BUFFER env) (FRAME_BUFFER_SIZE env);
     trdosDisk := replicate (Z.to_nat 0xa0000) 0;
     stopped := false;
     tape := None;
     posted := [Ready] |}.

End Worker.


(** ** Vocabulary of the statements *)

(** The frame output region as the specification words it: the region of
    length [FRAME_BUFFER_SIZE] that starts at the core's frame-buffer
    offset. *)
Definition spec_frame_region (FRAME_BUFFER_SIZE FRAME_BUFFER : Z) (mem : bytes) : bytes :=
  take (Z.to_nat FRAME_BUFFER_SIZE) (drop (Z.to_nat FRAME_BUFFER) mem).

(** The running checksum of the loader: the block type XORed with every
    payload byte copied. *)
Definition xor_checksum (blockType : Z) (payload : bytes) : Z :=
  foldl Z.lxor blockType payload.

(** The pokes that copy [payload] to [ix], [ix + 1], ... modulo 2^16. *)
Definition payload_pokes (ix : Z) (payload : bytes) : list Action :=
  imap (fun i byte => Poke ((ix + Z.of_nat i) mod 65536) byte) payload.

(** The store of one memory page into its slot of the machine memory. *)
Definition page_store (MACHINE_MEMORY : Z) (p : Z * bytes) : Action :=
  MemorySet (MACHINE_MEMORY + fst p * 0x4000) (snd p).

(** The actions of a snapshot load, in the order the specification gives. *)
Definition snapshot_actions (MACHINE_MEMORY : Z) (s : Snapshot) : list Action :=
  [SetMachineType (model s)]
  ++ map (page_store MACHINE_MEMORY) (memoryPages s)
  ++ [RegisterWrite 0 (pair (registers s) AF mod 65536);
      RegisterWrite 1 (pair (registers s) BC mod 65536);
      RegisterWrite 2 (pair (registers s) DE mod 65536);
      RegisterWrite 3 (pair (registers s) HL mod 65536);
      RegisterWrite 4 (pair (registers s) AF_ mod 65536);
      RegisterWrite 5 (pair (registers s) BC_ mod 65536);
      RegisterWrite 6 (pair (registers s) DE_ mod 65536);
      RegisterWrite 7 (pair (registers s) HL_ mod 65536);
      RegisterWrite 8 (pair (registers s) IX mod 65536);
      RegisterWrite 9 (pair (registers s) IY mod 65536);
      RegisterWrite 10 (pair (registers s) SP mod 65536);
      RegisterWrite 11 (pair (registers s) IR mod 65536)]
  ++ [SetPC (PC (registers s)); SetIFF1 (iff1 (registers s)); SetIFF2 (iff2 (registers s));
      SetIM (im (registers s)); SetHalted (halted s)]
  ++ [WritePort 0x00fe (borderColour (ulaState s))]
  ++ (if model s =? 48 then [] else [WritePort 0x7ffd (pagingFlags (ulaState s))])
  ++ [SetTStates (tstates s)].

(** Every supplied page lies inside a memory image of [len] bytes. *)
Definition pages_fit (MACHINE_MEMORY : Z) (len : nat) (pages : list (Z * bytes)) : bool :=
  forallb (fun '(page, data) =>
             (0 <=? MACHINE_MEMORY + page * 0x4000)
             && (MACHINE_MEMORY + page * 0x4000 + Z.of_nat (length data) <=? Z.of_nat len))
          pages.

(** The exceptions of the frame loop, as opposed to a [RangeError] of a
    typed array. *)
Definition fatal (e : Exn) : bool :=
  match e with
  | RangeError => false
  | UnrecognisedOpcode | UnexpectedResult _ => true
  end.

(** The exception the frame loop throws for a status that is neither
    Completed (0) nor TapeLoadTrapHit (2). *)
Definition exn_of_status (status : Z) : Exn :=
  if status =? 1 then UnrecognisedOpcode else UnexpectedResult status.

Definition is_Poke (a : Action) : bool :=
  match a with Poke _ _ => true | _ => false end.

(** AF with the carry flag (bit 0) set on success and cleared on failure. *)
Definition with_carry (success : bool) (af : Z) : Z :=
  if success then Z.lor af 0x0001 else Z.land af 0xfffe.

(** The core after a trap that made the pokes [pokes] and ended in
    [success]: the pokes, the store to AF and the call of [setPC]. *)
Definition trap_result (success : bool) (pokes : list Action) (c : Core) : Core :=
  let af := with_carry success (typed_get (registerPairs c) 0) in
  {| memoryData := memoryData c;
     registerPairs := <[0%nat := af]> (registerPairs c);
     actions := actions c ++ pokes ++ [RegisterWrite 0 af; SetPC 0x05e2] |}.

(** ** Collaborators for the examples *)

(** Modelled from the spec: the Tape Source (the classes of [tape.js])
    hands out its load blocks one at a time, in order, and yields nothing
    once exhausted.  The tape is the list of blocks still to come. *)
Definition next_block (t : list bytes) : option bytes * list bytes :=
  match t with
  | [] => (None, [])
  | block :: t' => (Some block, t')
  end.

(** A stand-in for the two container parsers: the data is one block. *)
Definition one_block (data : bytes) : list bytes := [data].

(** A core whose frame completes at once, leaving memory and registers as
    they are. *)
Definition frame_completes (c : Core) : Z * bytes * list Z :=
  (0, memoryData c, registerPairs c).

(** A core that meets an opcode it does not know. *)
Definition frame_crashes (c : Core) : Z * bytes * list Z :=
  (1, memoryData c, registerPairs c).

(** A core that stops at the tape trap. *)
Definition frame_traps (c : Core) : Z * bytes * list Z :=
  (2, memoryData c, registerPairs c).

(** Register pairs AF = [af], DE = [de], AF' = [af_], IX = [ix], the
    others zero. *)
Definition pairs (af de af_ ix : Z) : list Z :=
  [af; 0; de; 0; af_; 0; 0; 0; ix; 0; 0; 0].

Definition core_with (mem : bytes) (regs : list Z) : Core :=
  {| memoryData := mem; registerPairs := regs; actions := [] |}.

(** A worker with the tape [t] attached. *)
Definition worker_with (c : Core) (t : option (list bytes)) : Worker :=
  {| core := c; workerFrameData := {| byteOffset := 0; viewLength := 0 |};
     trdosDisk := []; stopped := false; tape := t; posted := [Ready] |}.

(** The block of the specification's scenario: type 0, payload 0x11 0x22,
    checksum 0x33. *)
Definition scenario_block : bytes := [0x00; 0x11; 0x22; 0x33].

(** The imports of the examples: a frame buffer at [frame_buffer] of
    declared size [size], machine memory at 0, audio at 8 and 16, and the
    given behaviour of the core. *)
Definition imports_with (size frame_buffer : Z)
    (runFrame resumeFrame : Core -> Z * bytes * list Z) : Imports (list bytes) :=
  {| FRAME_BUFFER_SIZE := size;
     getNextLoadableBlock := next_block;
     TAPFile := one_block;
     TZXFile := one_block;
     FRAME_BUFFER := frame_buffer;
     MACHINE_MEMORY := 0;
     AUDIO_BUFFER_LEFT := 8;
     AUDIO_BUFFER_RIGHT := 16;
     core_runFrame := runFrame;
     core_resumeFrame := resumeFrame |}.

Definition quiet_imports : Imports (list bytes) :=
  imports_with 4 0 frame_completes frame_completes.

(** A core whose frame buffer does not start at offset 0 of its memory:
    it starts at 2, and [FRAME_BUFFER_SIZE] is 4. *)
Definition offset_imports : Imports (list bytes) :=
  imports_with 4 2 frame_completes frame_completes.

(** A core that reports an unrecognised opcode on every frame. *)
Definition crashing_imports : Imports (list bytes) :=
  imports_with 4 0 frame_crashes frame_crashes.

Definition eight_bytes : bytes := [10; 11; 12; 13; 14; 15; 16; 17].

(** A run-frame request with a video buffer of four bytes and no audio. *)
Definition video_request : FrameRequest :=
  {| frameBuffer := [0; 0; 0; 0]; audioBuffers := None |}.

(** A 128K snapshot with one three-byte page. *)
Definition small_snapshot : Snapshot :=
  {| model := 128;
     memoryPages := [(0, [1; 2; 3])];
     registers := {| pair := fun r => match r with AF => 0x1234 | SP => 0x1ffff | _ => 0 end;
                     PC := 0x8000; iff1 := 1; iff2 := 1; im := 1 |};
     halted := false;
     ulaState := {| borderColour := 7; pagingFlags := 0x10 |};
     tstates := 42 |}.

(** A core that stops at the tape trap again on every resume. *)
Definition trapping_imports : Imports (list bytes) :=
  imports_with 4 0 frame_traps frame_traps.

Definition twenty_four_bytes : bytes :=
  [0; 1; 2; 3; 4; 5; 6; 7; 8; 9; 10; 11; 12; 13; 14; 15; 16; 17; 18; 19; 20; 21; 22; 23].

(** A run-frame request with audio buffers of one sample each. *)
Definition audio_request : FrameRequest :=
  {| frameBuffer := [0; 0; 0; 0];
     audioBuffers := Some ([0; 0; 0; 0], [0; 0; 0; 0]) |}.

(** ** Vocabulary of the further properties *)

(** A statement that leaves the sizes of the memory image and of the
    register array as they are, whether it returns or throws. *)
Definition keeps_sizes (s : Step) : Prop :=
  forall c,
    length (memoryData (fst (s c))) = length (memoryData c)
    /\ length (registerPairs (fst (s c))) = length (registerPairs c).

Definition is_FrameCompleted (m : Posted) : bool :=
  match m with FrameCompleted _ _ => true | Ready => false end.

Definition is_MsgRunFrame (m : Message) : bool :=
  match m with MsgRunFrame _ => true | _ => false end.

(** What the worker does to the core between the call of [runFrame] and
    the end of the frame loop: pokes, stores to AF, [setPC(0x05e2)] and
    [resumeFrame]. *)
Definition is_trap_action (a : Action) : bool :=
  match a with
  | Poke _ _ | RegisterWrite 0 _ | ResumeFrame => true
  | SetPC pc => pc =? 0x05e2
  | _ => false
  end.

(** The sample count the [runFrame] case announces to the core. *)
Definition announced_samples (req : FrameRequest) : Z :=
  match audioBuffers req with
  | Some (l, _) => Z.of_nat (length l) / 4
  | None => 0
  end.

(** Imports with the machine memory at offset 2 of the image. *)
Definition paged_imports : Imports (list bytes) :=
  {| FRAME_BUFFER_SIZE := 4;
     getNextLoadableBlock := next_block;
     TAPFile := one_block;
     TZXFile := one_block;
     FRAME_BUFFER := 0;
     MACHINE_MEMORY := 2;
     AUDIO_BUFFER_LEFT := 8;
     AUDIO_BUFFER_RIGHT := 16;
     core_runFrame := frame_completes;
     core_resumeFrame := frame_completes |}.


(** A worker over a memory image of 24 bytes whose first four are the
    frame buffer; no tape, nothing posted but the ready message. *)
Definition small_worker : @Worker (list bytes) :=
  {| core := core_with twenty_four_bytes (pairs 0 0 0 0);
     workerFrameData := subarray 24 0 4;
     trdosDisk := [];
     stopped := false;
     tape := None;
     posted := [Ready] |}.

(** A run-frame request whose audio buffers are empty. *)
Definition silent_request : FrameRequest :=
  {| frameBuffer := [0; 0; 0; 0]; audioBuffers := Some ([], []) |}.

(** ** The statuses of a frame *)

(** The call of [runFrame] that opens the handling of a run-frame
    request, after the call of [setAudioSamplesPerFrame]: the status
    returned and the worker then. *)
Definition frame_start {Tape : Type} (env : Imports Tape) (req : FrameRequest)
    (w : @Worker Tape) : Z * @Worker Tape :=
  engine RunFrame (core_runFrame env)
         (with_core (log (SetAudioSamplesPerFrame (announced_samples req)) (core w)) w).

(** One more round of the frame loop after a tape trap: the trap
    handler, then [resumeFrame]. *)
Definition trap_round {Tape : Type} (env : Imports Tape)
    (r : Z * @Worker Tape) : Z * @Worker Tape :=
  engine ResumeFrame (core_resumeFrame env) (trapTapeLoad env r.2).

(** The status and the worker [n] rounds after [r]. *)
Fixpoint after_traps {Tape : Type} (env : Imports Tape) (n : nat)
    (r : Z * @Worker Tape) : Z * @Worker Tape :=
  match n with
  | O => r
  | S n' => after_traps env n' (trap_round env r)
  end.

(** The status of [r] and those of the [n - 1] rounds after it are all
    TapeLoadTrapHit (2). *)
Fixpoint trap_hits {Tape : Type} (env : Imports Tape) (n : nat)
    (r : Z * @Worker Tape) : bool :=
  match n with
  | O => true
  | S n' => (r.1 =? 2) && trap_hits env n' (trap_round env r)
  end.

(** A core whose frame stops at the tape trap and which, resumed, meets
    an opcode it does not know. *)
Definition trap_then_crash_imports : Imports (list bytes) :=
  imports_with 4 0 frame_traps frame_crashes.

(** * Properties *)

(** ** Typed arrays *)

Lemma is_Uint16Array_length n a : is_Uint16Array n a = true -> length a = n.
Proof.
  unfold is_Uint16Array. intros H. apply andb_prop in H as [H _].
  by apply Nat.eqb_eq in H.
Qed.

Lemma is_Uint16Array_range n a i :
  is_Uint16Array n a = true -> 0 <= typed_get a i < 65536.
Proof.
  unfold is_Uint16Array, typed_get. intros H. apply andb_prop in H as [_ H].
  destruct (a !! i) as [v|] eqn:E; simpl; [|lia].
  rewrite forallb_forall in H.
  assert (In v a) as Hin by (apply list_elem_of_In, list_elem_of_lookup; eauto).
  apply H in Hin. lia.
Qed.

Lemma typed_get_u16_set_eq a i v :
  (i < length a)%nat -> typed_get (u16_set a i v) i = v mod 65536.
Proof.
  intros H. unfold typed_get, u16_set. by rewrite list_lookup_insert_eq.
Qed.

Lemma typed_get_u16_set_ne a i j v :
  i <> j -> typed_get (u16_set a i v) j = typed_get a j.
Proof.
  intros H. unfold typed_get, u16_set. by rewrite list_lookup_insert_ne.
Qed.

Lemma land_ffff x : Z.land x 0xffff = x mod 65536.
Proof. change 0xffff with (Z.ones 16). by rewrite Z.land_ones. Qed.

(** Setting the carry of a 16-bit value keeps it a 16-bit value. *)
Lemma carry_set_range x : 0 <= x < 65536 -> Z.lor x 1 mod 65536 = Z.lor x 1.
Proof.
  intros H. apply Z.mod_small. split.
  - apply Z.lor_nonneg. lia.
  - assert (Z.lor x 1 < 2 ^ 16); [|lia].
    destruct (Z.eq_dec (Z.lor x 1) 0) as [->|Hne]; [lia|].
    apply Z.log2_lt_pow2; [pose proof (Z.lor_nonneg x 1); lia|].
    rewrite Z.log2_lor by lia.
    destruct (Z.eq_dec x 0) as [->|]; [simpl; lia|].
    assert (Z.log2 x < 16) by (apply Z.log2_lt_pow2; lia).
    change (Z.log2 1) with 0. pose proof (Z.log2_nonneg x). lia.
Qed.

Lemma carry_clear_range x : 0 <= x < 65536 -> Z.land x 0xfffe mod 65536 = Z.land x 0xfffe.
Proof.
  intros H. apply Z.mod_small.
  assert (0 <= Z.land x 0xfffe) by (apply Z.land_nonneg; lia).
  destruct (Z.eq_dec (Z.land x 0xfffe) 0) as [->|Hne]; [lia|].
  assert (Z.land x 0xfffe < 2 ^ 16); [|lia].
  apply Z.log2_lt_pow2; [lia|].
  pose proof (Z.log2_land x 0xfffe). change (Z.log2 0xfffe) with 15 in *. lia.
Qed.

Lemma carry_set_bits x n : n <> 0 -> Z.testbit (Z.lor x 1) n = Z.testbit x n.
Proof.
  intros Hn. rewrite Z.lor_spec.
  destruct (Z.testbit x n); [done|]. simpl.
  destruct n; [done| |]; reflexivity.
Qed.

Lemma carry_clear_bits x n :
  0 <= x < 65536 -> n <> 0 -> Z.testbit (Z.land x 0xfffe) n = Z.testbit x n.
Proof.
  intros Hx Hn. rewrite Z.land_spec.
  destruct (Z_lt_ge_dec n 0) as [Hneg|Hpos].
  { by rewrite !Z.testbit_neg_r. }
  destruct (Z_lt_ge_dec n 16) as [Hlo|Hhi].
  - assert (Z.testbit 0xfffe n = true) as ->; [|by rewrite andb_true_r].
    assert (n = 1 \/ n = 2 \/ n = 3 \/ n = 4 \/ n = 5 \/ n = 6 \/ n = 7 \/ n = 8
            \/ n = 9 \/ n = 10 \/ n = 11 \/ n = 12 \/ n = 13 \/ n = 14 \/ n = 15)
      as Hc by lia.
    repeat destruct Hc as [->|Hc]; try reflexivity. by subst.
  - assert (Z.testbit x n = false) as ->; [|done].
    destruct (Z.eq_dec x 0) as [->|]; [apply Z.bits_0|].
    apply Z.bits_above_log2; [lia|].
    assert (Z.log2 x < 16) by (apply Z.log2_lt_pow2; lia). lia.
Qed.

(** ** The copy loop *)

Lemma payload_pokes_cons ix byte payload :
  0 <= ix < 65536 ->
  payload_pokes ix (byte :: payload)
  = Poke ix byte :: payload_pokes (Z.land (ix + 1) 0xffff) payload.
Proof.
  intros Hix. unfold payload_pokes. rewrite imap_cons. f_equal.
  - f_equal. rewrite Z.add_0_r. by apply Z.mod_small.
  - apply imap_ext. intros i b _. simpl. f_equal.
    rewrite land_ffff, Zplus_mod_idemp_l. f_equal. lia.
Qed.

Lemma payload_pokes_length ix payload : length (payload_pokes ix payload) = length payload.
Proof. unfold payload_pokes. by rewrite length_imap. Qed.

Lemma payload_pokes_lookup ix payload (i : nat) byte :
  payload !! i = Some byte ->
  payload_pokes ix payload !! i = Some (Poke ((ix + Z.of_nat i) mod 65536) byte).
Proof. intros H. unfold payload_pokes. by rewrite list_lookup_imap, H. Qed.

Lemma payload_pokes_are_pokes ix payload : forallb is_Poke (payload_pokes ix payload) = true.
Proof.
  apply forallb_forall. intros a Hin.
  apply list_elem_of_In, list_elem_of_lookup in Hin as [i Hi].
  unfold payload_pokes in Hi. rewrite list_lookup_imap in Hi.
  destruct (payload !! i); by simplify_eq/=.
Qed.

(** The loop copies the first [remaining] bytes from [offset] on, or as
    many as the block has, and succeeds when none was missing. *)
Lemma copyBlock_spec remaining block offset addr checksum c :
  0 <= addr < 65536 ->
  copyBlock remaining block offset addr checksum c
  = let payload := take remaining (drop offset block) in
    ((length payload =? remaining)%nat,
     (offset + length payload)%nat,
     xor_checksum checksum payload,
     {| memoryData := memoryData c;
        registerPairs := registerPairs c;
        actions := actions c ++ payload_pokes addr payload |}).
Proof.
  revert offset addr checksum c.
  induction remaining as [|n IH]; intros offset addr checksum c Haddr; simpl.
  - rewrite Nat.add_0_r, app_nil_r. by destruct c.
  - destruct (block !! offset) as [byte|] eqn:E.
    + rewrite IH by (rewrite land_ffff; apply Z.mod_pos_bound; lia).
      rewrite (drop_S _ _ _ E). simpl.
      rewrite payload_pokes_cons by done.
      rewrite <- app_assoc. simpl.
      repeat f_equal. lia.
    + apply lookup_ge_None in E. rewrite drop_ge by done. simpl.
      rewrite Nat.add_0_r, app_nil_r. by destruct c.
Qed.

(** ** The trap handler on a block *)

Lemma finish_trap (success : bool) (c : Core) :
  is_Uint16Array 12 (registerPairs c) = true ->
  core_setPC 0x05e2
    (if success
     then set_registerPair 0 (Z.lor (typed_get (registerPairs c) 0) 0x0001) c
     else set_registerPair 0 (Z.land (typed_get (registerPairs c) 0) 0xfffe) c)
  = trap_result success [] c.
Proof.
  intros Hregs. pose proof (is_Uint16Array_range _ _ 0%nat Hregs) as Haf.
  unfold trap_result, core_setPC, log, set_registerPair, u16_set, with_carry.
  destruct success; simpl.
  - rewrite carry_set_range by done. by rewrite <- app_assoc.
  - rewrite carry_clear_range by done. by rewrite <- app_assoc.
Qed.

Lemma trap_result_pokes success pokes c :
  trap_result success pokes c
  = trap_result success []
      {| memoryData := memoryData c; registerPairs := registerPairs c;
         actions := actions c ++ pokes |}.
Proof. unfold trap_result. simpl. by rewrite <- app_assoc. Qed.

(** A block of another type than expected, or without a first byte. *)
Lemma loadBlock_mismatch block c :
  is_Uint16Array 12 (registerPairs c) = true ->
  block !! 0%nat <> Some (Z.shiftr (typed_get (registerPairs c) 4) 8) ->
  loadBlock block c = trap_result false [] c.
Proof.
  intros Hregs Hne. unfold loadBlock. cbv zeta.
  destruct (block !! 0%nat) as [actual|] eqn:E.
  - destruct (Z.eqb_spec (Z.shiftr (typed_get (registerPairs c) 4) 8) actual) as [Heq|_];
      [congruence|]. simpl. apply (finish_trap false c Hregs).
  - apply (finish_trap false c Hregs).
Qed.

(** VERIFY of a block of the expected type. *)
Lemma loadBlock_verify block c :
  is_Uint16Array 12 (registerPairs c) = true ->
  block !! 0%nat = Some (Z.shiftr (typed_get (registerPairs c) 4) 8) ->
  Z.land (typed_get (registerPairs c) 4) 1 = 0 ->
  loadBlock block c = trap_result true [] c.
Proof.
  intros Hregs Htype Hverify. unfold loadBlock. cbv zeta.
  rewrite Htype, Z.eqb_refl, Hverify. simpl. apply (finish_trap true c Hregs).
Qed.

(** LOAD of a block of the expected type: the payload is poked, and the
    outcome is that of the checksum comparison. *)
Lemma loadBlock_load block c :
  is_Uint16Array 12 (registerPairs c) = true ->
  block !! 0%nat = Some (Z.shiftr (typed_get (registerPairs c) 4) 8) ->
  Z.land (typed_get (registerPairs c) 4) 1 <> 0 ->
  let count := Z.to_nat (typed_get (registerPairs c) 2) in
  let payload := take count (drop 1 block) in
  loadBlock block c
  = trap_result
      (bool_decide (block !! S count
                    = Some (xor_checksum (Z.shiftr (typed_get (registerPairs c) 4) 8) payload)))
      (payload_pokes (typed_get (registerPairs c) 8) payload) c.
Proof.
  intros Hregs Htype Hload count payload. unfold loadBlock. cbv zeta.
  rewrite Htype, Z.eqb_refl. simpl.
  destruct (Z.eqb_spec (Z.land (typed_get (registerPairs c) 4) 1) 0) as [|_]; [done|].
  simpl. rewrite copyBlock_spec by (by eapply is_Uint16Array_range).
  fold count. fold payload. cbv zeta.
  set (t := Z.shiftr (typed_get (registerPairs c) 4) 8).
  set (c1 := {| memoryData := memoryData c; registerPairs := registerPairs c;
                actions := actions c ++ payload_pokes (typed_get (registerPairs c) 8) payload |}).
  rewrite trap_result_pokes. fold c1.
  assert (length payload = count `min` (length block - 1))%nat as Hlen
    by (unfold payload; rewrite length_take, length_drop; lia).
  assert (is_Uint16Array 12 (registerPairs c1) = true) as Hregs1 by done.
  destruct (Nat.eqb_spec (length payload) count) as [Heq|Hneq]; simpl.
  - rewrite Heq. destruct (block !! S count) as [e|] eqn:E.
    + apply lookup_lt_Some in E as Hlt.
      destruct (Nat.ltb_spec (S count) (length block)) as [_|]; [|lia].
      rewrite (finish_trap _ c1 Hregs1). f_equal.
      destruct (Z.eqb_spec (xor_checksum t payload) e) as [->|Hne].
      * by rewrite bool_decide_eq_true_2.
      * rewrite bool_decide_eq_false_2; [done|congruence].
    + rewrite bool_decide_eq_false_2 by done.
      destruct (S count <? length block)%nat; apply (finish_trap false c1 Hregs1).
  - assert (block !! S count = None) as -> by (apply lookup_ge_None; lia).
    rewrite bool_decide_eq_false_2 by done. apply (finish_trap false c1 Hregs1).
Qed.

Lemma loadBlock_cases block c :
  is_Uint16Array 12 (registerPairs c) = true ->
  exists success payload,
    loadBlock block c
    = trap_result success (payload_pokes (typed_get (registerPairs c) 8) payload) c.
Proof.
  intros Hregs.
  destruct (decide (block !! 0%nat = Some (Z.shiftr (typed_get (registerPairs c) 4) 8)))
    as [Htype|Htype].
  - destruct (Z.eq_dec (Z.land (typed_get (registerPairs c) 4) 1) 0) as [Hverify|Hload].
    + exists true, []. by apply loadBlock_verify.
    + eexists _, _. by apply loadBlock_load.
  - exists false, []. by apply loadBlock_mismatch.
Qed.

Lemma land_1_testbit x : Z.land x 1 = Z.b2z (Z.testbit x 0).
Proof.
  change 1 with (Z.ones 1). rewrite Z.land_ones by lia.
  symmetry. apply Z.bit0_mod.
Qed.

Lemma carry_of_with_carry success af : Z.testbit (with_carry success af) 0 = success.
Proof.
  destruct success; unfold with_carry.
  - rewrite Z.lor_spec. apply orb_true_r.
  - rewrite Z.land_spec. apply andb_false_r.
Qed.

Lemma with_carry_bits success af n :
  0 <= af < 65536 -> n <> 0 ->
  Z.testbit (with_carry success af) n = Z.testbit af n.
Proof.
  intros Haf Hn. destruct success; unfold with_carry.
  - by apply carry_set_bits.
  - by apply carry_clear_bits.
Qed.

Lemma trap_result_carry success pokes c :
  is_Uint16Array 12 (registerPairs c) = true ->
  Z.testbit (typed_get (registerPairs (trap_result success pokes c)) 0) 0 = success.
Proof.
  intros Hregs. apply is_Uint16Array_length in Hregs. simpl.
  unfold typed_get. rewrite list_lookup_insert_eq by lia. simpl.
  apply carry_of_with_carry.
Qed.

Lemma trap_result_last success pokes c :
  last (actions (trap_result success pokes c)) = Some (SetPC 0x05e2).
Proof.
  simpl. generalize (with_carry success (typed_get (registerPairs c) 0)). intros af.
  change [RegisterWrite 0 af; SetPC 0x05e2] with ([RegisterWrite 0 af] ++ [SetPC 0x05e2]).
  rewrite !app_assoc. apply last_snoc.
Qed.

(** ** The trap handler *)

Section Trap.

Context {Tape : Type} (env : Imports Tape).

Lemma trapTapeLoad_block (w : Worker) t t' block :
  tape w = Some t ->
  getNextLoadableBlock env t = (Some block, t') ->
  trapTapeLoad env w = with_core (loadBlock block (core w)) (with_tape (Some t') w).
Proof. intros Ht Hb. unfold trapTapeLoad. by rewrite Ht, Hb. Qed.

(** C1: a LOAD of a block of the expected type, with at most as many
    bytes requested as the block has payload and with the right checksum
    byte after them, sets the carry flag, pokes block bytes 1..count to
    (IX + i) mod 65536 for i = 0..count-1 and nothing else, and ends by
    setting the program counter to 0x05E2. *)
Theorem trapTapeLoad_load_success (w : Worker) t t' block :
  tape w = Some t ->
  getNextLoadableBlock env t = (Some block, t') ->
  is_Uint16Array 12 (registerPairs (core w)) = true ->
  let af := typed_get (registerPairs (core w)) 0 in
  let de := typed_get (registerPairs (core w)) 2 in
  let af_ := typed_get (registerPairs (core w)) 4 in
  let ix := typed_get (registerPairs (core w)) 8 in
  let payload := take (Z.to_nat de) (drop 1 block) in
  Z.testbit af_ 0 = true ->
  block !! 0%nat = Some (Z.shiftr af_ 8) ->
  de <= Z.of_nat (length block) - 2 ->
  block !! S (Z.to_nat de) = Some (xor_checksum (Z.shiftr af_ 8) payload) ->
  let c' := core (trapTapeLoad env w) in
  Z.testbit (typed_get (registerPairs c') 0) 0 = true
  /\ registerPairs c' = <[0%nat := Z.lor af 1]> (registerPairs (core w))
  /\ actions c'
     = actions (core w) ++ payload_pokes ix payload ++ [RegisterWrite 0 (Z.lor af 1); SetPC 0x05e2]
  /\ (forall i : nat, Z.of_nat i < de ->
        exists byte,
          block !! S i = Some byte
          /\ actions c' !! (length (actions (core w)) + i)%nat
             = Some (Poke ((ix + Z.of_nat i) mod 65536) byte))
  /\ length payload = Z.to_nat de
  /\ last (actions c') = Some (SetPC 0x05e2).
Proof.
  intros Ht Hb Hregs af de af_ ix payload Hload Htype Hcount Hsum c'.
  assert (c' = trap_result true (payload_pokes ix payload) (core w)) as ->.
  { unfold c'. rewrite (trapTapeLoad_block w t t' block Ht Hb). simpl.
    rewrite loadBlock_load; [|done|done|rewrite land_1_testbit; fold af_; by rewrite Hload].
    fold de. fold payload. fold af_. by rewrite bool_decide_eq_true_2. }
  assert (length payload = Z.to_nat de) as Hlen.
  { unfold payload. rewrite length_take, length_drop.
    pose proof (is_Uint16Array_range _ _ 2%nat Hregs). fold de in H. lia. }
  split; [by apply trap_result_carry|].
  repeat split; try done.
  - intros i Hi.
    assert (is_Some (payload !! i)) as [byte Hbyte] by (apply lookup_lt_is_Some; lia).
    exists byte. split.
    + unfold payload in Hbyte. rewrite lookup_take_lt, lookup_drop in Hbyte by lia. done.
    + simpl. rewrite lookup_app_r by lia.
      replace (length (actions (core w)) + i - length (actions (core w)))%nat with i by lia.
      apply lookup_app_l_Some. by apply payload_pokes_lookup.
  - apply trap_result_last.
Qed.

(** C2, as amended: a VERIFY of a block of the expected type sets the
    carry flag whatever the rest of the block holds, pokes nothing, and
    ends by setting the program counter to 0x05E2. *)
Theorem trapTapeLoad_verify (w : Worker) t t' block :
  tape w = Some t ->
  getNextLoadableBlock env t = (Some block, t') ->
  is_Uint16Array 12 (registerPairs (core w)) = true ->
  let af := typed_get (registerPairs (core w)) 0 in
  let af_ := typed_get (registerPairs (core w)) 4 in
  Z.testbit af_ 0 = false ->
  block !! 0%nat = Some (Z.shiftr af_ 8) ->
  let c' := core (trapTapeLoad env w) in
  Z.testbit (typed_get (registerPairs c') 0) 0 = true
  /\ registerPairs c' = <[0%nat := Z.lor af 1]> (registerPairs (core w))
  /\ actions c' = actions (core w) ++ [RegisterWrite 0 (Z.lor af 1); SetPC 0x05e2].
Proof.
  intros Ht Hb Hregs af af_ Hverify Htype c'.
  assert (c' = trap_result true [] (core w)) as ->.
  { unfold c'. rewrite (trapTapeLoad_block w t t' block Ht Hb). simpl.
    apply loadBlock_verify; [done|done|].
    rewrite land_1_testbit. fold af_. by rewrite Hverify. }
  split; [by apply trap_result_carry|]. done.
Qed.

(** C4: a block whose first byte is not the expected type clears the
    carry flag, writes nothing to the core's memory, and still ends by
    setting the program counter to 0x05E2. *)
Theorem trapTapeLoad_type_mismatch (w : Worker) t t' block :
  tape w = Some t ->
  getNextLoadableBlock env t = (Some block, t') ->
  is_Uint16Array 12 (registerPairs (core w)) = true ->
  let af := typed_get (registerPairs (core w)) 0 in
  let af_ := typed_get (registerPairs (core w)) 4 in
  block !! 0%nat <> Some (Z.shiftr af_ 8) ->
  let c' := core (trapTapeLoad env w) in
  Z.testbit (typed_get (registerPairs c') 0) 0 = false
  /\ registerPairs c' = <[0%nat := Z.land af 0xfffe]> (registerPairs (core w))
  /\ actions c' = actions (core w) ++ [RegisterWrite 0 (Z.land af 0xfffe); SetPC 0x05e2].
Proof.
  intros Ht Hb Hregs af af_ Htype c'.
  assert (c' = trap_result false [] (core w)) as ->.
  { unfold c'. rewrite (trapTapeLoad_block w t t' block Ht Hb). simpl.
    by apply loadBlock_mismatch. }
  split; [by apply trap_result_carry|]. done.
Qed.

(** C5: a LOAD of a block of the expected type that asks for more bytes
    than the block has after its type byte, or that finds no checksum
    byte after the copied ones, or a wrong one, clears the carry flag;
    the bytes copied until then stay poked, nothing undoes them, and the
    program counter is set to 0x05E2. *)
Theorem trapTapeLoad_load_failure (w : Worker) t t' block :
  tape w = Some t ->
  getNextLoadableBlock env t = (Some block, t') ->
  is_Uint16Array 12 (registerPairs (core w)) = true ->
  let af := typed_get (registerPairs (core w)) 0 in
  let de := typed_get (registerPairs (core w)) 2 in
  let af_ := typed_get (registerPairs (core w)) 4 in
  let ix := typed_get (registerPairs (core w)) 8 in
  let copied := take (Z.to_nat de) (drop 1 block) in
  Z.testbit af_ 0 = true ->
  block !! 0%nat = Some (Z.shiftr af_ 8) ->
  Z.of_nat (length block) - 1 < de
  \/ block !! S (Z.to_nat de) = None
  \/ (exists e, block !! S (Z.to_nat de) = Some e
                /\ e <> xor_checksum (Z.shiftr af_ 8) copied) ->
  let c' := core (trapTapeLoad env w) in
  Z.testbit (typed_get (registerPairs c') 0) 0 = false
  /\ registerPairs c' = <[0%nat := Z.land af 0xfffe]> (registerPairs (core w))
  /\ actions c'
     = actions (core w) ++ payload_pokes ix copied
       ++ [RegisterWrite 0 (Z.land af 0xfffe); SetPC 0x05e2]
  /\ length copied = Nat.min (Z.to_nat de) (length block - 1).
Proof.
  intros Ht Hb Hregs af de af_ ix copied Hload Htype Hfail c'.
  assert (block !! S (Z.to_nat de) <> Some (xor_checksum (Z.shiftr af_ 8) copied)) as Hne.
  { destruct Hfail as [Hlong|[Hnone|(e & He & Hne)]].
    - assert (block !! S (Z.to_nat de) = None) as ->; [|done].
      apply lookup_ge_None. lia.
    - by rewrite Hnone.
    - rewrite He. congruence. }
  assert (c' = trap_result false (payload_pokes ix copied) (core w)) as ->.
  { unfold c'. rewrite (trapTapeLoad_block w t t' block Ht Hb). simpl.
    rewrite loadBlock_load; [|done|done|rewrite land_1_testbit; fold af_; by rewrite Hload].
    fold de. fold copied. fold af_. by rewrite bool_decide_eq_false_2. }
  split; [by apply trap_result_carry|].
  repeat split; try done.
  unfold copied. rewrite length_take, length_drop. lia.
Qed.

(** C7: without a tape, or when the tape has no block to give, the trap
    handler leaves the core as it is: memory, register pairs and program
    counter (no action at all is performed on the core), and nothing is
    posted. *)
Theorem trapTapeLoad_no_block (w : Worker) :
  tape w = None
  \/ (exists t, tape w = Some t /\ fst (getNextLoadableBlock env t) = None) ->
  core (trapTapeLoad env w) = core w
  /\ stopped (trapTapeLoad env w) = stopped w
  /\ posted (trapTapeLoad env w) = posted w
  /\ (tape w = None -> trapTapeLoad env w = w).
Proof.
  intros H. unfold trapTapeLoad.
  destruct H as [Hnone|(t & Ht & Hb)].
  - by rewrite Hnone.
  - rewrite Ht. destruct (getNextLoadableBlock env t) as [next t']. simpl in Hb. subst next.
    repeat split; done.
Qed.

(** C9: a LOAD of zero bytes from a block of the expected type pokes
    nothing, and the checksum test still decides: the carry flag is set
    exactly when the block has a byte at offset 1 equal to its first
    byte. *)
Theorem trapTapeLoad_zero_length (w : Worker) t t' block :
  tape w = Some t ->
  getNextLoadableBlock env t = (Some block, t') ->
  is_Uint16Array 12 (registerPairs (core w)) = true ->
  let af := typed_get (registerPairs (core w)) 0 in
  let af_ := typed_get (registerPairs (core w)) 4 in
  Z.testbit af_ 0 = true ->
  block !! 0%nat = Some (Z.shiftr af_ 8) ->
  typed_get (registerPairs (core w)) 2 = 0 ->
  let c' := core (trapTapeLoad env w) in
  let carry := Z.testbit (typed_get (registerPairs c') 0) 0 in
  (carry = true <-> exists b, block !! 1%nat = Some b /\ block !! 0%nat = Some b)
  /\ actions c'
     = actions (core w) ++ [RegisterWrite 0 (with_carry carry af); SetPC 0x05e2].
Proof.
  intros Ht Hb Hregs af af_ Hload Htype Hzero c' carry.
  set (ok := bool_decide (block !! 1%nat = Some (Z.shiftr af_ 8))).
  assert (c' = trap_result ok [] (core w)) as Hc'.
  { unfold c'. rewrite (trapTapeLoad_block w t t' block Ht Hb). simpl.
    rewrite loadBlock_load; [|done|done|rewrite land_1_testbit; fold af_; by rewrite Hload].
    by rewrite Hzero. }
  assert (carry = ok) as ->.
  { unfold carry. rewrite Hc'. by apply trap_result_carry. }
  rewrite Hc'. split; [|done].
  unfold ok. rewrite bool_decide_eq_true, Htype. split.
  - intros H1. eauto.
  - by intros (b & H1 & [= ->]).
Qed.

(** C10: when the trap handler processes a block, the only store to the
    register pairs is to AF and changes at most its bit 0; IX and DE, and
    every other pair, keep their values; on the core it calls only [poke]
    and, last, [setPC]. *)
Theorem trapTapeLoad_register_frame (w : Worker) t t' block :
  tape w = Some t ->
  getNextLoadableBlock env t = (Some block, t') ->
  is_Uint16Array 12 (registerPairs (core w)) = true ->
  let af := typed_get (registerPairs (core w)) 0 in
  let c' := core (trapTapeLoad env w) in
  let af' := typed_get (registerPairs c') 0 in
  (forall n, n <> 0 -> Z.testbit af' n = Z.testbit af n)
  /\ registerPairs c' = <[0%nat := af']> (registerPairs (core w))
  /\ (forall i : nat, i <> 0%nat -> registerPairs c' !! i = registerPairs (core w) !! i)
  /\ typed_get (registerPairs c') 8 = typed_get (registerPairs (core w)) 8
  /\ typed_get (registerPairs c') 2 = typed_get (registerPairs (core w)) 2
  /\ exists pokes,
       forallb is_Poke pokes = true
       /\ actions c' = actions (core w) ++ pokes ++ [RegisterWrite 0 af'; SetPC 0x05e2].
Proof.
  intros Ht Hb Hregs af c' af'.
  destruct (loadBlock_cases block (core w) Hregs) as (success & payload & Hc).
  assert (c' = trap_result success
                 (payload_pokes (typed_get (registerPairs (core w)) 8) payload) (core w)) as Hc'.
  { unfold c'. by rewrite (trapTapeLoad_block w t t' block Ht Hb). }
  assert (af' = with_carry success af) as Haf'.
  { unfold af'. rewrite Hc'. simpl. unfold typed_get at 1.
    rewrite list_lookup_insert_eq; [done|]. apply is_Uint16Array_length in Hregs. lia. }
  rewrite Haf', Hc'. clear Hc' Haf'. simpl.
  split; [|split; [done|split; [|split; [|split]]]].
  - intros n Hn. apply with_carry_bits; [|done]. by eapply is_Uint16Array_range.
  - intros i Hi. by rewrite list_lookup_insert_ne.
  - unfold typed_get. by rewrite list_lookup_insert_ne.
  - unfold typed_get. by rewrite list_lookup_insert_ne.
  - eexists. split; [apply payload_pokes_are_pokes|done].
Qed.

End Trap.

(** ** Loading a snapshot *)

Lemma andThen_returned (f g : Step) c c' :
  f c = (c', Returned) -> (f >>> g) c = g c'.
Proof. intros H. unfold andThen. by rewrite H. Qed.

Lemma andThen_threw (f g : Step) c c' e :
  f c = (c', Threw e) -> (f >>> g) c = (c', Threw e).
Proof. intros H. unfold andThen. by rewrite H. Qed.

Lemma typed_set_length target source offset result :
  typed_set target source offset = Some result -> length result = length target.
Proof.
  unfold typed_set. intros H.
  destruct (Z.ltb_spec offset 0); [done|].
  destruct (Z.ltb_spec (Z.of_nat (length target)) (offset + Z.of_nat (length source)));
    simplify_eq/=.
  rewrite !length_app, length_take, length_drop. lia.
Qed.

Lemma typed_set_fits target source offset :
  0 <= offset ->
  offset + Z.of_nat (length source) <= Z.of_nat (length target) ->
  is_Some (typed_set target source offset).
Proof.
  intros H0 H1. unfold typed_set.
  destruct (Z.ltb_spec offset 0); [lia|].
  destruct (Z.ltb_spec (Z.of_nat (length target)) (offset + Z.of_nat (length source)));
    [lia|]. by eexists.
Qed.

Lemma actions_log a c : actions (log a c) = actions c ++ [a].
Proof. reflexivity. Qed.

Lemma actions_set_registerPair i v c :
  actions (set_registerPair i v c) = actions c ++ [RegisterWrite i (v mod 65536)].
Proof. reflexivity. Qed.

Lemma registerPairs_log a c : registerPairs (log a c) = registerPairs c.
Proof. reflexivity. Qed.

Lemma registerPairs_set_registerPair i v c :
  registerPairs (set_registerPair i v c) = u16_set (registerPairs c) i v.
Proof. reflexivity. Qed.

Section Snapshots.

Context {Tape : Type} (env : Imports Tape).

(** The page loop performs the stores of the pages up to the first one
    that does not fit, which throws. *)
Lemma load_pages_spec pages c :
  let r := forEach (fun '(page, data) => loadMemoryPage env page data) pages c in
  exists k,
    actions (fst r) = actions c ++ map (page_store (MACHINE_MEMORY env)) (take k pages)
    /\ registerPairs (fst r) = registerPairs c
    /\ length (memoryData (fst r)) = length (memoryData c)
    /\ (snd r = Returned -> k = length pages)
    /\ (pages_fit (MACHINE_MEMORY env) (length (memoryData c)) pages = true ->
        snd r = Returned).
Proof.
  revert c. induction pages as [|[page data] pages IH]; intros c.
  - exists 0%nat. simpl. by rewrite app_nil_r.
  - cbn [forEach]. cbv zeta.
    destruct (typed_set (memoryData c) data (MACHINE_MEMORY env + page * 0x4000))
      as [m|] eqn:E.
    + set (c1 := {| memoryData := m; registerPairs := registerPairs c;
                    actions := actions c ++ [MemorySet (MACHINE_MEMORY env + page * 0x4000) data] |}).
      rewrite (andThen_returned _ _ c c1) by (unfold loadMemoryPage; by rewrite E).
      destruct (IH c1) as (k & Hact & Hregs & Hlen & Hret & Hfit).
      apply typed_set_length in E as Em.
      exists (S k). split; [rewrite Hact; simpl; rewrite <- app_assoc; reflexivity|].
      split; [done|]. split; [by rewrite Hlen|].
      split; [intros Ho; simpl; by rewrite Hret|].
      intros Hall. apply andb_prop in Hall as [_ Hall]. apply Hfit. simpl. by rewrite Em.
    + rewrite (andThen_threw _ _ c c RangeError) by (unfold loadMemoryPage; by rewrite E).
      exists 0%nat. simpl. rewrite app_nil_r. repeat split; try done.
      intros Hall. apply andb_prop in Hall as [Hpage _].
      apply andb_prop in Hpage as [H0 H1]. apply Z.leb_le in H0, H1.
      destruct (typed_set_fits (memoryData c) data _ H0 H1) as [m Hm]. congruence.
Qed.

(** Once the page loop has returned, the rest of the load cannot throw. *)
Lemma loadSnapshot_returned (snapshot : Snapshot) (c c1 : Core) :
  forEach (fun '(page, data) => loadMemoryPage env page data) (memoryPages snapshot)
          (log (SetMachineType (model snapshot)) c) = (c1, Returned) ->
  exists c',
    loadSnapshot env snapshot c = (c', Returned)
    /\ actions c' = actions c ++ snapshot_actions (MACHINE_MEMORY env) snapshot.
Proof.
  intros E1. unfold loadSnapshot.
  rewrite (andThen_returned _ _ c (log (SetMachineType (model snapshot)) c)) by done.
  pose proof (load_pages_spec (memoryPages snapshot) (log (SetMachineType (model snapshot)) c))
    as (k & Hact & _ & _ & Hret & _).
  rewrite E1 in Hact, Hret. simpl in Hact, Hret.
  rewrite (Hret eq_refl), firstn_all in Hact.
  rewrite (andThen_returned _ _ _ c1 E1).
  unfold snapshot_actions.
  destruct (model snapshot =? 48);
    cbn [negb forEach imap registerNames andThen call store skip log set_registerPair
         actions registerPairs memoryData];
    eexists; (split; [reflexivity|]);
    rewrite !actions_log, !actions_set_registerPair, Hact, ?actions_log;
    rewrite <- !app_assoc; reflexivity.
Qed.



(** Whatever the snapshot, the actions performed are an initial part of
    that list: a page that does not fit ends the load with a
    [RangeError]. *)
Lemma loadSnapshot_prefix (snapshot : Snapshot) (c : Core) :
  exists done_,
    actions (fst (loadSnapshot env snapshot c)) = actions c ++ done_
    /\ done_ `prefix_of` snapshot_actions (MACHINE_MEMORY env) snapshot.
Proof.
  pose proof (load_pages_spec (memoryPages snapshot) (log (SetMachineType (model snapshot)) c))
    as (k & Hact & _ & _ & _ & _).
  destruct (forEach _ (memoryPages snapshot) _) as [c1 [|e]] eqn:E1; simpl in Hact.
  - destruct (loadSnapshot_returned snapshot c c1 E1) as (c' & -> & Hact').
    eexists. split; [exact Hact'|done].
  - unfold loadSnapshot.
    rewrite (andThen_returned _ _ c (log (SetMachineType (model snapshot)) c)) by done.
    rewrite (andThen_threw _ _ _ c1 e E1). simpl. rewrite Hact, <- app_assoc.
    eexists. split; [done|]. unfold snapshot_actions.
    apply prefix_app, prefix_app_r.
    rewrite <- (take_drop k (memoryPages snapshot)) at 2.
    rewrite map_app. by apply prefix_app_r.
Qed.

End Snapshots.

(** ** The frame loop and the message handler *)

Section Dispatcher.

Context {Tape : Type} (env : Imports Tape).

Lemma trapTapeLoad_keeps (w : Worker) :
  stopped (trapTapeLoad env w) = stopped w
  /\ posted (trapTapeLoad env w) = posted w
  /\ workerFrameData (trapTapeLoad env w) = workerFrameData w.
Proof.
  unfold trapTapeLoad. destruct (tape w) as [t|]; [|done].
  destruct (getNextLoadableBlock env t) as [[block|] t']; done.
Qed.

Lemma engine_keeps a f (w : @Worker Tape) :
  stopped (engine a f w).2 = stopped w
  /\ posted (engine a f w).2 = posted w
  /\ workerFrameData (engine a f w).2 = workerFrameData w.
Proof. unfold engine. by destruct (f (core w)) as [[status m] r]. Qed.

(** A status other than Completed and TapeLoadTrapHit stops the worker
    and throws, whatever the fuel. *)
Lemma frameLoop_fatal fuel status (w : Worker) :
  status <> 0 -> status <> 2 ->
  frameLoop env fuel status w
  = Some (with_stopped true w, Threw (exn_of_status status)).
Proof.
  intros H0 H2. unfold exn_of_status. destruct fuel; simpl;
    destruct (Z.eqb_spec status 0); try done;
    destruct (Z.eqb_spec status 1); try done;
    destruct (Z.eqb_spec status 2); done.
Qed.

(** The loop posts nothing; when it throws, the exception is one of the
    two of the loop and the worker is stopped. *)
Lemma frameLoop_spec fuel status (w w' : Worker) o :
  frameLoop env fuel status w = Some (w', o) ->
  posted w' = posted w
  /\ workerFrameData w' = workerFrameData w
  /\ match o with
     | Returned => stopped w' = stopped w
     | Threw e =>
         fatal e = true /\ stopped w' = true
         /\ exists status', status' <> 0 /\ status' <> 2 /\ e = exn_of_status status'
     end.
Proof.
  revert status w. induction fuel as [|fuel IH]; intros status w; simpl;
    destruct (Z.eqb_spec status 0); try (intros [= <- <-]; done);
    destruct (Z.eqb_spec status 1);
      try (intros [= <- <-]; repeat split; try done; exists status; by subst);
    destruct (Z.eqb_spec status 2);
      try (intros [= <- <-]; repeat split; try done; exists status;
           unfold exn_of_status; by destruct (Z.eqb_spec status 1)).
  pose proof (trapTapeLoad_keeps w) as (Hs & Hp & Hv).
  pose proof (engine_keeps ResumeFrame (core_resumeFrame env) (trapTapeLoad env w))
    as (Hs' & Hp' & Hv').
  destruct (engine _ _ _) as [status' w1]. simpl in *.
  intros H. apply IH in H as (Hp1 & Hv1 & Ho).
  rewrite Hp1, Hv1, Hp', Hv', Hp, Hv. repeat split; try done.
  destruct o; [congruence|done].
Qed.

Lemma handleRunFrame_threw fuel req (w w' : Worker) e :
  handleRunFrame env fuel req w = Some (w', Threw e) ->
  fatal e = true ->
  stopped w' = true /\ posted w' = posted w.
Proof.
  unfold handleRunFrame. destruct (stopped w) eqn:Hst; [done|].
  set (w1 := with_core _ w).
  pose proof (engine_keeps RunFrame (core_runFrame env) w1) as (_ & Hp & _).
  destruct (engine _ _ _) as [status w2]. simpl in Hp.
  destruct (frameLoop env fuel status w2) as [[w3 [|e']]|] eqn:Hloop; [| |done].
  - unfold completeFrame.
    destruct (typed_set _ _ _) as [frameData|]; [|intros [= <- <-]; done].
    destruct (audioBuffers req) as [[left right]|]; [|done].
    destruct (negb _); [|done].
    destruct (copyAudio _ _ _ _); [done|]. intros [= <- <-]. done.
  - intros [= <- <-] Hf. apply frameLoop_spec in Hloop as (Hp3 & _ & _ & Hs3 & _).
    split; [done|]. by rewrite Hp3, Hp.
Qed.

Lemma on_core_keeps (s : Step) (w : @Worker Tape) :
  stopped (on_core s w).1 = stopped w /\ posted (on_core s w).1 = posted w.
Proof. unfold on_core. by destruct (s (core w)). Qed.

(** A stopped worker handles every message without fuel, stays stopped
    and posts nothing. *)
Lemma onmessage_stopped fuel m (w : Worker) :
  stopped w = true ->
  exists w' o,
    onmessage env fuel m w = Some (w', o)
    /\ stopped w' = true /\ posted w' = posted w.
Proof.
  intros Hst.
  assert (forall s : Step, exists w' o,
            Some (on_core s w) = Some (w', o)
            /\ stopped w' = true /\ posted w' = posted w) as Hcore.
  { intros s. destruct (on_core_keeps s w) as [Hs Hp].
    destruct (on_core s w) as [w' o]. simpl in *. exists w', o. by rewrite Hs. }
  destruct m; simpl; try apply Hcore; try (by eexists _, _).
  unfold handleRunFrame. rewrite Hst. by eexists _, _.
Qed.

Lemma process_stopped fuel ms (w : Worker) :
  stopped w = true ->
  exists w',
    process env fuel ms w = Some w'
    /\ stopped w' = true /\ posted w' = posted w.
Proof.
  revert w. induction ms as [|m ms IH]; intros w Hst; simpl.
  - by exists w.
  - destruct (onmessage_stopped fuel m w Hst) as (w1 & o & -> & Hst1 & Hp1).
    destruct (IH w1 Hst1) as (w2 & -> & Hst2 & Hp2).
    exists w2. by rewrite Hp2, Hp1.
Qed.

(** Once the handler of a run-frame request has thrown one of the loop's
    two exceptions, the worker is stopped for good. *)
Lemma fatal_exception_stops_for_good fuel req (w w1 : Worker) e :
  onmessage env fuel (MsgRunFrame req) w = Some (w1, Threw e) ->
  fatal e = true ->
  stopped w1 = true
  /\ posted w1 = posted w
  /\ forall fuel' ms,
       exists w2,
         process env fuel' ms w1 = Some w2
         /\ stopped w2 = true
         /\ posted w2 = posted w1
         /\ forall fuel'' req', onmessage env fuel'' (MsgRunFrame req') w2 = Some (w2, Returned).
Proof.
  intros H Hf. simpl in H.
  destruct (handleRunFrame_threw fuel req w w1 e H Hf) as [Hst Hp].
  split; [done|]. split; [done|].
  intros fuel' ms.
  destruct (process_stopped fuel' ms w1 Hst) as (w2 & Hproc & Hst2 & Hp2).
  exists w2. repeat split; try done.
  intros fuel'' req'. simpl. unfold handleRunFrame. by rewrite Hst2.
Qed.

(** While the statuses are trap hits the loop goes round. *)
Lemma frameLoop_after_traps n fuel status (w : Worker) :
  (n <= fuel)%nat ->
  trap_hits env n (status, w) = true ->
  frameLoop env fuel status w
  = frameLoop env (fuel - n) (after_traps env n (status, w)).1
              (after_traps env n (status, w)).2.
Proof.
  revert fuel status w. induction n as [|n IH]; intros fuel status w Hn Hhits.
  - by rewrite Nat.sub_0_r.
  - destruct fuel as [|fuel]; [lia|]. simpl in Hhits.
    apply andb_prop in Hhits as [Hs Hhits]. apply Z.eqb_eq in Hs. subst status.
    cbn [after_traps]. unfold trap_round in *. cbn [snd] in *.
    cbn [frameLoop]. change (2 =? 0) with false. change (2 =? 1) with false.
    change (2 =? 2) with true. cbv iota.
    destruct (engine ResumeFrame (core_resumeFrame env) (trapTapeLoad env w))
      as [status' w'] eqn:E.
    rewrite (IH fuel status' w') by (done || lia). done.
Qed.

(** How the loop ends: after some rounds of trap hits, on the status 0,
    where it returns, or on a status other than 0 and 2, where it stops
    the worker and throws. *)
Lemma frameLoop_trace fuel status (w w' : Worker) o :
  frameLoop env fuel status w = Some (w', o) ->
  exists n,
    (n <= fuel)%nat
    /\ trap_hits env n (status, w) = true
    /\ match o with
       | Returned =>
           (after_traps env n (status, w)).1 = 0
           /\ w' = (after_traps env n (status, w)).2
       | Threw e =>
           (after_traps env n (status, w)).1 <> 0
           /\ (after_traps env n (status, w)).1 <> 2
           /\ e = exn_of_status (after_traps env n (status, w)).1
           /\ w' = with_stopped true (after_traps env n (status, w)).2
       end.
Proof.
  revert status w. induction fuel as [|fuel IH]; intros status w; cbn [frameLoop];
    destruct (Z.eqb_spec status 0) as [->|H0];
      try (intros [= <- <-]; exists 0%nat; repeat split; done || lia);
    destruct (Z.eqb_spec status 1) as [->|H1];
      try (intros [= <- <-]; exists 0%nat; repeat split; done || lia);
    destruct (Z.eqb_spec status 2) as [->|H2];
      try done;
      try (intros [= <- <-]; exists 0%nat; repeat split; try (done || lia);
           unfold exn_of_status; simpl; by destruct (Z.eqb_spec status 1)).
  destruct (engine ResumeFrame (core_resumeFrame env) (trapTapeLoad env w))
    as [status' w1] eqn:E.
  intros H. apply IH in H as (n & Hn & Hhits & Hend).
  exists (S n). split; [lia|].
  cbn [trap_hits after_traps]. unfold trap_round. cbn [snd]. rewrite E.
  split; [done|]. done.
Qed.

(** C6: when, in the handling of a run-frame request by a worker that is
    not stopped, the core returns a status other than Completed (0) and
    TapeLoadTrapHit (2), be it from [runFrame] or from a [resumeFrame]
    after any number of tape traps, the handler throws for that status
    with the stopped flag set and nothing posted; whatever messages
    follow, reset included, the worker stays stopped, posts nothing
    more, and drops every later run-frame request. *)
Theorem fatal_status_stops_for_good fuel n req (w : Worker) :
  stopped w = false ->
  trap_hits env n (frame_start env req w) = true ->
  (after_traps env n (frame_start env req w)).1 <> 0 ->
  (after_traps env n (frame_start env req w)).1 <> 2 ->
  (n <= fuel)%nat ->
  let status := (after_traps env n (frame_start env req w)).1 in
  let w1 := with_stopped true (after_traps env n (frame_start env req w)).2 in
  onmessage env fuel (MsgRunFrame req) w = Some (w1, Threw (exn_of_status status))
  /\ stopped w1 = true
  /\ posted w1 = posted w
  /\ forall fuel' ms,
       exists w2,
         process env fuel' ms w1 = Some w2
         /\ stopped w2 = true
         /\ posted w2 = posted w1
         /\ forall fuel'' req', onmessage env fuel'' (MsgRunFrame req') w2 = Some (w2, Returned).
Proof.
  intros Hst Hhits H0 H2 Hn status w1.
  assert (onmessage env fuel (MsgRunFrame req) w = Some (w1, Threw (exn_of_status status)))
    as Hrun.
  { cbn [onmessage]. unfold handleRunFrame. rewrite Hst.
    change (engine RunFrame (core_runFrame env) _) with (frame_start env req w).
    destruct (frame_start env req w) as [status0 w0] eqn:E.
    rewrite (frameLoop_after_traps n fuel status0 w0 Hn Hhits).
    rewrite frameLoop_fatal by done. done. }
  split; [done|].
  apply (fatal_exception_stops_for_good fuel req w w1 (exn_of_status status) Hrun).
  unfold exn_of_status. by destruct (status =? 1).
Qed.

End Dispatcher.

(** ** The frame copied at the end of a run-frame request *)

Lemma typed_set_0 target source :
  (length source <= length target)%nat ->
  typed_set target source 0 = Some (source ++ drop (length source) target).
Proof.
  intros H. unfold typed_set.
  destruct (Z.ltb_spec (Z.of_nat (length target)) (0 + Z.of_nat (length source))); [lia|].
  reflexivity.
Qed.

(** What [subarray(begin, end)] covers when both lie inside the array,
    in this order: the elements from [begin] up to, not including,
    [end]. *)
Lemma subarray_read (mem : bytes) begin end_ :
  0 <= begin <= end_ -> end_ <= Z.of_nat (length mem) ->
  view_read (subarray (length mem) begin end_) mem
  = take (Z.to_nat (end_ - begin)) (drop (Z.to_nat begin) mem).
Proof.
  intros Hb He. unfold view_read, subarray, clamp_index. simpl.
  destruct (Z.ltb_spec begin 0); [lia|]. destruct (Z.ltb_spec end_ 0); [lia|].
  by rewrite !Z.min_l, Z.max_l by lia.
Qed.

(** With the frame buffer at offset 0 the view is the region the
    specification describes. *)
Lemma subarray_read_at_0 (mem : bytes) size :
  0 <= size <= Z.of_nat (length mem) ->
  view_read (subarray (length mem) 0 size) mem = spec_frame_region size 0 mem.
Proof.
  intros H. rewrite subarray_read by lia. unfold spec_frame_region.
  by rewrite Z.sub_0_r.
Qed.

Section Frames.

Context {Tape : Type} (env : Imports Tape).

(** A run-frame request whose loop ends with Completed posts one
    frame-completed message: the video buffer overwritten, from its
    start, with the contents of [workerFrameData], and, when audio
    buffers of non-zero length came with the request, these overwritten
    with the two audio regions of the core. *)
Lemma handleRunFrame_completed fuel req (w w' : Worker) :
  stopped w = false ->
  handleRunFrame env fuel req w = Some (w', Returned) ->
  exists frameData audio,
    posted w' = posted w ++ [FrameCompleted frameData audio]
    /\ typed_set (frameBuffer req)
                 (view_read (workerFrameData w) (memoryData (core w'))) 0
       = Some frameData
    /\ audio = match audioBuffers req with
               | Some (l, r) =>
                   if (length l =? 0)%nat then None
                   else copyAudio env (memoryData (core w')) l r
               | None => None
               end.
Proof.
  intros Hst. unfold handleRunFrame. rewrite Hst.
  set (w1 := with_core _ w).
  pose proof (engine_keeps RunFrame (core_runFrame env) w1) as (_ & Hp & Hv).
  destruct (engine _ _ _) as [status w2]. simpl in Hp, Hv.
  destruct (frameLoop env fuel status w2) as [[w3 [|e']]|] eqn:Hloop; [|done|done].
  apply frameLoop_spec in Hloop as (Hp3 & Hv3 & _).
  unfold completeFrame. rewrite Hv3, Hv.
  destruct (typed_set _ _ _) as [frameData|] eqn:Eset; [|done].
  assert (posted w3 = posted w) as Hpw by (by rewrite Hp3, Hp).
  destruct (audioBuffers req) as [[left right]|].
  - destruct (Nat.eqb_spec (length left) 0); simpl.
    + intros [= <-]. exists frameData, None. simpl. by rewrite Hpw.
    + destruct (copyAudio _ _ _ _) as [audio|] eqn:Eaudio; [|done].
      intros [= <-]. exists frameData, (Some audio). simpl. by rewrite Hpw.
  - intros [= <-]. exists frameData, None. simpl. by rewrite Hpw.
Qed.

(** The same, read off the memory: when the frame buffer and
    [FRAME_BUFFER_SIZE] lie inside the memory image, in this order, the
    first [FRAME_BUFFER_SIZE - FRAME_BUFFER] bytes of the posted video
    buffer are the bytes of the image from [FRAME_BUFFER] on, and the
    rest of the buffer is what the request brought. *)
Lemma handleRunFrame_video fuel req (w w' : Worker) (mem0 : bytes) :
  workerFrameData w = subarray (length mem0) (FRAME_BUFFER env) (FRAME_BUFFER_SIZE env) ->
  length (memoryData (core w')) = length mem0 ->
  0 <= FRAME_BUFFER env <= FRAME_BUFFER_SIZE env ->
  FRAME_BUFFER_SIZE env <= Z.of_nat (length mem0) ->
  stopped w = false ->
  handleRunFrame env fuel req w = Some (w', Returned) ->
  let n := Z.to_nat (FRAME_BUFFER_SIZE env - FRAME_BUFFER env) in
  exists frameData audio,
    posted w' = posted w ++ [FrameCompleted frameData audio]
    /\ take n frameData = take n (drop (Z.to_nat (FRAME_BUFFER env)) (memoryData (core w')))
    /\ drop n frameData = drop n (frameBuffer req).
Proof.
  intros Hview Hlen Hfb Hsize Hst Hrun n.
  destruct (handleRunFrame_completed fuel req w w' Hst Hrun)
    as (frameData & audio & Hposted & Hset & _).
  exists frameData, audio. split; [done|].
  rewrite Hview, <- Hlen, subarray_read in Hset by lia. fold n in Hset.
  set (source := take n _) in *.
  assert (length source = n) as Hn.
  { unfold source. rewrite length_take, length_drop. lia. }
  unfold typed_set in Hset. destruct (_ || _); [done|].
  injection Hset as <-. simpl. rewrite Hn.
  split.
  - by rewrite take_app_length'.
  - by rewrite drop_app_length'.
Qed.

End Frames.

(** C3: with the frame buffer at offset 2 of an eight-byte memory and
    [FRAME_BUFFER_SIZE] 4, a run-frame request that completes copies two
    bytes into the video buffer, those at offsets 2 and 3, and leaves the
    rest of the buffer as it was; the region of length
    [FRAME_BUFFER_SIZE] at the frame-buffer offset is four bytes long. *)
Theorem runFrame_copies_up_to_FRAME_BUFFER_SIZE :
  exists w',
    onmessage offset_imports 0 (MsgRunFrame video_request)
              (run offset_imports (core_with eight_bytes (pairs 0 0 0 0)))
    = Some (w', Returned)
    /\ memoryData (core w') = eight_bytes
    /\ posted w' = [Ready; FrameCompleted [12; 13; 0; 0] None]
    /\ spec_frame_region (FRAME_BUFFER_SIZE offset_imports) (FRAME_BUFFER offset_imports)
                         eight_bytes
       = [12; 13; 14; 15].
Proof. eexists. split; [reflexivity|]. repeat split. Qed.

(** * The theorems at concrete inputs *)

(** The scenario block loaded to 0xFFFF: the second byte goes to 0x0000. *)
Lemma trapTapeLoad_load_success_witness :
  let w := worker_with (core_with [] (pairs 0 2 0x0001 0xffff)) (Some [scenario_block]) in
  (tape w = Some [scenario_block]
   /\ next_block [scenario_block] = (Some scenario_block, [])
   /\ is_Uint16Array 12 (registerPairs (core w)) = true
   /\ Z.testbit 0x0001 0 = true
   /\ scenario_block !! 0%nat = Some (Z.shiftr 0x0001 8)
   /\ 2 <= Z.of_nat (length scenario_block) - 2
   /\ scenario_block !! 3%nat = Some (xor_checksum 0 [0x11; 0x22]))
  /\ actions (core (trapTapeLoad quiet_imports w))
     = [Poke 0xffff 0x11; Poke 0x0000 0x22; RegisterWrite 0 1; SetPC 0x05e2].
Proof.
  intros w. split.
  - repeat split; first [reflexivity | vm_compute; congruence].
  - destruct (trapTapeLoad_load_success quiet_imports w [scenario_block] [] scenario_block)
      as (_ & _ & H & _);
      [reflexivity .. | exact H].
Defined.

(** The scenario block at 0x8000, as the specification has it. *)
Example scenario_load :
  let c' := core (trapTapeLoad quiet_imports
                    (worker_with (core_with [] (pairs 0 2 0x0001 0x8000))
                                 (Some [scenario_block]))) in
  registerPairs c' = pairs 1 2 0x0001 0x8000
  /\ actions c' = [Poke 0x8000 0x11; Poke 0x8001 0x22; RegisterWrite 0 1; SetPC 0x05e2].
Proof. split; reflexivity. Qed.

(** C2 as stated fails: in VERIFY mode (AF' = 0x0100, bit 0 clear) a
    block of type 0 where type 1 is expected clears the carry flag that
    was set before the trap. *)
Lemma verify_type_mismatch_clears_carry :
  ~ (forall (w : Worker) t t' block,
       tape w = Some t ->
       next_block t = (Some block, t') ->
       is_Uint16Array 12 (registerPairs (core w)) = true ->
       Z.testbit (typed_get (registerPairs (core w)) 4) 0 = false ->
       Z.testbit (typed_get (registerPairs (core (trapTapeLoad quiet_imports w))) 0) 0 = true).
Proof.
  intros H.
  specialize (H (worker_with (core_with [] (pairs 1 2 0x0100 0x8000)) (Some [scenario_block]))
                [scenario_block] [] scenario_block eq_refl eq_refl eq_refl eq_refl).
  vm_compute in H. discriminate H.
Qed.

Lemma trapTapeLoad_verify_witness :
  let w := worker_with (core_with [] (pairs 0 2 0x0000 0x8000)) (Some [scenario_block]) in
  (tape w = Some [scenario_block]
   /\ next_block [scenario_block] = (Some scenario_block, [])
   /\ is_Uint16Array 12 (registerPairs (core w)) = true
   /\ Z.testbit 0x0000 0 = false
   /\ scenario_block !! 0%nat = Some (Z.shiftr 0x0000 8))
  /\ actions (core (trapTapeLoad quiet_imports w)) = [RegisterWrite 0 1; SetPC 0x05e2].
Proof.
  intros w. split.
  - repeat split; reflexivity.
  - destruct (trapTapeLoad_verify quiet_imports w [scenario_block] [] scenario_block)
      as (_ & _ & H); [reflexivity .. | exact H].
Defined.

Lemma trapTapeLoad_type_mismatch_witness :
  let w := worker_with (core_with [] (pairs 0xff 2 0x0101 0x8000)) (Some [scenario_block]) in
  (tape w = Some [scenario_block]
   /\ next_block [scenario_block] = (Some scenario_block, [])
   /\ is_Uint16Array 12 (registerPairs (core w)) = true
   /\ scenario_block !! 0%nat <> Some (Z.shiftr 0x0101 8))
  /\ actions (core (trapTapeLoad quiet_imports w)) = [RegisterWrite 0 0xfe; SetPC 0x05e2].
Proof.
  intros w. split.
  - repeat split; first [reflexivity | vm_compute; congruence].
  - destruct (trapTapeLoad_type_mismatch quiet_imports w [scenario_block] [] scenario_block)
      as (_ & _ & H);
      [first [reflexivity | vm_compute; congruence] .. | exact H].
Defined.

(** Three bytes asked of the scenario block: all three bytes after the
    type byte are poked, and no checksum byte is left. *)
Lemma trapTapeLoad_load_failure_witness :
  let w := worker_with (core_with [] (pairs 0xff 3 0x0001 0x8000)) (Some [scenario_block]) in
  (tape w = Some [scenario_block]
   /\ next_block [scenario_block] = (Some scenario_block, [])
   /\ is_Uint16Array 12 (registerPairs (core w)) = true
   /\ Z.testbit 0x0001 0 = true
   /\ scenario_block !! 0%nat = Some (Z.shiftr 0x0001 8)
   /\ scenario_block !! 4%nat = None)
  /\ actions (core (trapTapeLoad quiet_imports w))
     = [Poke 0x8000 0x11; Poke 0x8001 0x22; Poke 0x8002 0x33;
        RegisterWrite 0 0xfe; SetPC 0x05e2].
Proof.
  intros w. split.
  - repeat split; reflexivity.
  - destruct (trapTapeLoad_load_failure quiet_imports w [scenario_block] [] scenario_block)
      as (_ & _ & H & _);
      [reflexivity | reflexivity | reflexivity | reflexivity | reflexivity
      | right; left; reflexivity | exact H].
Defined.

Lemma trapTapeLoad_no_block_witness :
  let w := worker_with (core_with [1; 2] (pairs 1 2 0x0001 0x8000)) (Some []) in
  (exists t, tape w = Some t /\ fst (next_block t) = None)
  /\ core (trapTapeLoad quiet_imports w) = core_with [1; 2] (pairs 1 2 0x0001 0x8000).
Proof.
  intros w.
  assert (exists t, tape w = Some t /\ fst (next_block t) = None) as H
    by (exists []; split; reflexivity).
  split; [exact H|].
  destruct (trapTapeLoad_no_block quiet_imports w (or_intror H)) as (Hc & _).
  exact Hc.
Defined.

Lemma trapTapeLoad_zero_length_witness :
  let w := worker_with (core_with [] (pairs 0 0 0x0001 0x8000)) (Some [[0; 0]]) in
  (tape w = Some [[0; 0]]
   /\ next_block [[0; 0]] = (Some [0; 0], [])
   /\ is_Uint16Array 12 (registerPairs (core w)) = true
   /\ Z.testbit 0x0001 0 = true
   /\ [0; 0] !! 0%nat = Some (Z.shiftr 0x0001 8)
   /\ typed_get (registerPairs (core w)) 2 = 0)
  /\ actions (core (trapTapeLoad quiet_imports w)) = [RegisterWrite 0 1; SetPC 0x05e2].
Proof.
  intros w. split.
  - repeat split; reflexivity.
  - destruct (trapTapeLoad_zero_length quiet_imports w [[0; 0]] [] [0; 0])
      as (_ & H); [reflexivity .. | exact H].
Defined.

Lemma trapTapeLoad_register_frame_witness :
  let w := worker_with (core_with [] (pairs 0xfe 2 0x0001 0x8000)) (Some [scenario_block]) in
  let c' := core (trapTapeLoad quiet_imports w) in
  (tape w = Some [scenario_block]
   /\ next_block [scenario_block] = (Some scenario_block, [])
   /\ is_Uint16Array 12 (registerPairs (core w)) = true)
  /\ typed_get (registerPairs c') 8 = 0x8000
  /\ typed_get (registerPairs c') 2 = 2.
Proof.
  intros w c'. split.
  - repeat split; reflexivity.
  - destruct (trapTapeLoad_register_frame quiet_imports w [scenario_block] [] scenario_block)
      as (_ & _ & _ & Hix & Hde & _); [reflexivity .. |].
    split; [exact Hix|exact Hde].
Defined.



(** The core stops at the tape trap, the block is loaded, and on resume
    the core reports an unrecognised opcode; a reset and one more
    run-frame request follow. *)
Lemma fatal_status_stops_for_good_witness :
  let env := trap_then_crash_imports in
  let w := worker_with (core_with eight_bytes (pairs 0 2 0x0001 0x8000))
                       (Some [scenario_block]) in
  let r := after_traps env 1 (frame_start env video_request w) in
  (stopped w = false
   /\ trap_hits env 1 (frame_start env video_request w) = true
   /\ r.1 = 1
   /\ (1 <= 1)%nat)
  /\ onmessage env 1 (MsgRunFrame video_request) w
     = Some (with_stopped true r.2, Threw UnrecognisedOpcode)
  /\ exists w2,
       process env 0 [MsgReset; MsgRunFrame video_request] (with_stopped true r.2) = Some w2
       /\ stopped w2 = true
       /\ posted w2 = [Ready].
Proof.
  intros env w r.
  split; [repeat split; reflexivity|].
  destruct (fatal_status_stops_for_good env 1 1 video_request w eq_refl eq_refl
              ltac:(vm_compute; congruence) ltac:(vm_compute; congruence) (le_n 1))
    as (Hrun & _ & _ & H).
  split; [exact Hrun|].
  destruct (H 0%nat [MsgReset; MsgRunFrame video_request]) as (w2 & Hproc & Hst & Hp & _).
  exists w2. split; [exact Hproc|]. split; [exact Hst|exact Hp].
Defined.

(** With the frame buffer at offset 0 the four bytes of the frame are
    copied, and the audio buffers receive the samples at the two audio
    offsets. *)
Example runFrame_with_audio :
  option_map (fun r => posted (fst r))
    (onmessage quiet_imports 0 (MsgRunFrame audio_request)
               (run quiet_imports (core_with twenty_four_bytes (pairs 0 0 0 0))))
  = Some [Ready; FrameCompleted [0; 1; 2; 3] (Some ([8; 9; 10; 11], [16; 17; 18; 19]))].
Proof. reflexivity. Qed.

(** Without a tape the trap handler does not move the program counter;
    with a core that comes back to the trap on every resume, the frame
    loop does not end, whatever the fuel. *)
Lemma frameLoop_without_tape_never_ends fuel (w : Worker) :
  tape w = None -> frameLoop trapping_imports fuel 2 w = None.
Proof.
  revert w. induction fuel as [|fuel IH]; intros w Ht; [done|].
  simpl. unfold trapTapeLoad. rewrite Ht. by apply IH.
Qed.

(** * Further properties of the worker *)

(** ** Memory pages *)

Lemma typed_set_lookup target source offset result :
  typed_set target source offset = Some result ->
  (forall i : nat, (i < length source)%nat ->
     result !! (Z.to_nat offset + i)%nat = source !! i)
  /\ (forall j : nat,
        (j < Z.to_nat offset)%nat \/ (Z.to_nat offset + length source <= j)%nat ->
        result !! j = target !! j).
Proof.
  unfold typed_set. intros H.
  destruct (Z.ltb_spec offset 0); [done|].
  destruct (Z.ltb_spec (Z.of_nat (length target)) (offset + Z.of_nat (length source)));
    simplify_eq/=.
  assert (length (take (Z.to_nat offset) target) = Z.to_nat offset) as Hlen
    by (rewrite length_take; lia).
  split.
  - intros i Hi. rewrite lookup_app_r by lia. rewrite Hlen.
    replace (Z.to_nat offset + i - Z.to_nat offset)%nat with i by lia.
    by rewrite lookup_app_l.
  - intros j [Hj|Hj].
    + rewrite lookup_app_l by lia. by rewrite lookup_take_lt.
    + rewrite lookup_app_r by lia. rewrite Hlen.
      rewrite lookup_app_r by lia. rewrite lookup_drop. f_equal. lia.
Qed.

Section Pages.

Context {Tape : Type} (env : Imports Tape).

(** X1: a page that lies inside the memory image is stored at
    MACHINE_MEMORY + page * 0x4000: afterwards the image reads the page
    there, reads as before everywhere else, and has the size it had. *)
Theorem loadMemoryPage_stores (page : Z) (data : bytes) (c : Core) :
  let offset := MACHINE_MEMORY env + page * 0x4000 in
  0 <= offset ->
  offset + Z.of_nat (length data) <= Z.of_nat (length (memoryData c)) ->
  exists c',
    loadMemoryPage env page data c = (c', Returned)
    /\ length (memoryData c') = length (memoryData c)
    /\ (forall i : nat, (i < length data)%nat ->
          memoryData c' !! (Z.to_nat offset + i)%nat = data !! i)
    /\ (forall j : nat,
          (j < Z.to_nat offset)%nat \/ (Z.to_nat offset + length data <= j)%nat ->
          memoryData c' !! j = memoryData c !! j)
    /\ actions c' = actions c ++ [MemorySet offset data].
Proof.
  intros offset H0 H1.
  destruct (typed_set_fits (memoryData c) data offset H0 H1) as [m Hm].
  unfold loadMemoryPage. fold offset. rewrite Hm.
  destruct (typed_set_lookup _ _ _ _ Hm) as [Hin Hout].
  eexists. split; [reflexivity|]. simpl.
  split; [by eapply typed_set_length|]. done.
Qed.

(** X2: a load-memory message whose page does not lie inside the memory
    image throws a [RangeError] and changes nothing at all: no byte of
    the page is stored, and the worker is not stopped. *)
Theorem loadMemory_out_of_range fuel (page : Z) (data : bytes) (w : Worker) :
  let offset := MACHINE_MEMORY env + page * 0x4000 in
  offset < 0 \/ Z.of_nat (length (memoryData (core w))) < offset + Z.of_nat (length data) ->
  onmessage env fuel (MsgLoadMemory page data) w = Some (w, Threw RangeError).
Proof.
  intros offset H. simpl. unfold on_core, loadMemoryPage. fold offset.
  assert (typed_set (memoryData (core w)) data offset = None) as ->.
  { unfold typed_set.
    destruct (Z.ltb_spec offset 0); [done|].
    destruct (Z.ltb_spec (Z.of_nat (length (memoryData (core w))))
                (offset + Z.of_nat (length data))); [done|lia]. }
  by destruct w.
Qed.

End Pages.

(** ** Snapshots *)

Lemma keeps_sizes_skip : keeps_sizes skip.
Proof. by intros c. Qed.

Lemma keeps_sizes_call a : keeps_sizes (call a).
Proof. by intros c. Qed.

Lemma keeps_sizes_set_registerPair i v : keeps_sizes (store (set_registerPair i v)).
Proof. intros c. simpl. unfold u16_set. by rewrite length_insert. Qed.

Lemma keeps_sizes_andThen f g : keeps_sizes f -> keeps_sizes g -> keeps_sizes (f >>> g).
Proof.
  intros Hf Hg c. unfold andThen. specialize (Hf c).
  destruct (f c) as [c1 [|e]]; simpl in *; [|done].
  destruct (Hg c1) as [Hm Hr]. by rewrite Hm, Hr.
Qed.

Lemma keeps_sizes_forEach {A} (f : A -> Step) l :
  (forall x, keeps_sizes (f x)) -> keeps_sizes (forEach f l).
Proof.
  intros Hf. induction l as [|x l IH]; simpl.
  - apply keeps_sizes_skip.
  - by apply keeps_sizes_andThen.
Qed.

Section MoreSnapshots.

Context {Tape : Type} (env : Imports Tape).

Lemma keeps_sizes_loadMemoryPage page data : keeps_sizes (loadMemoryPage env page data).
Proof.
  intros c. unfold loadMemoryPage.
  destruct (typed_set _ _ _) as [m|] eqn:E; simpl; [|done].
  split; [by eapply typed_set_length|done].
Qed.

(** X3: whatever the snapshot, and whether the load returns or throws, it
    leaves the memory image and the register array at the sizes they
    had. *)
Theorem loadSnapshot_keeps_sizes (snapshot : Snapshot) : keeps_sizes (loadSnapshot env snapshot).
Proof.
  unfold loadSnapshot.
  destruct (model snapshot =? 48); cbn [negb];
    repeat first
      [ apply keeps_sizes_andThen
      | apply keeps_sizes_call
      | apply keeps_sizes_skip
      | apply keeps_sizes_forEach; intros [? ?]
      | apply keeps_sizes_loadMemoryPage
      | apply keeps_sizes_set_registerPair ].
Qed.



(** X5: after the load of a snapshot whose pages fit, the twelve register
    pairs hold the snapshot's values for AF, BC, DE, HL, AF', BC', DE',
    HL', IX, IY, SP, IR, in this order, each reduced modulo 2^16. *)
Theorem loadSnapshot_registers (snapshot : Snapshot) (c : Core) :
  pages_fit (MACHINE_MEMORY env) (length (memoryData c)) (memoryPages snapshot) = true ->
  length (registerPairs c) = 12%nat ->
  exists c',
    loadSnapshot env snapshot c = (c', Returned)
    /\ registerPairs c' = map (fun r => pair (registers snapshot) r mod 65536) registerNames
    /\ is_Uint16Array 12 (registerPairs c') = true.
Proof.
  intros Hfit Hlen.
  pose proof (load_pages_spec env (memoryPages snapshot) (log (SetMachineType (model snapshot)) c))
    as (k & _ & Hregs & _ & _ & Hok).
  destruct (forEach _ (memoryPages snapshot) _) as [c1 o] eqn:E1. simpl in Hok, Hregs.
  specialize (Hok Hfit). subst o.
  assert (exists c',
            loadSnapshot env snapshot c = (c', Returned)
            /\ registerPairs c'
               = map (fun r => pair (registers snapshot) r mod 65536) registerNames)
    as (c' & Hrun & Hc').
  { unfold loadSnapshot.
    rewrite (andThen_returned _ _ c (log (SetMachineType (model snapshot)) c)) by done.
    rewrite (andThen_returned _ _ _ c1 E1).
    destruct (registerPairs c) as [|r0 [|r1 [|r2 [|r3 [|r4 [|r5 [|r6 [|r7 [|r8 [|r9
      [|r10 [|r11 [|r12 rest]]]]]]]]]]]]] eqn:Hc; try done.
    destruct (model snapshot =? 48);
      cbn [negb forEach imap registerNames andThen call store skip log set_registerPair
           actions registerPairs memoryData];
      eexists; (split; [reflexivity|]);
      rewrite !registerPairs_log, !registerPairs_set_registerPair, Hregs; reflexivity. }
  exists c'. split; [done|]. split; [done|].
  rewrite Hc'. unfold is_Uint16Array. apply andb_true_intro. split; [done|].
  apply forallb_forall. intros v Hin. apply in_map_iff in Hin as (r & <- & _).
  pose proof (Z.mod_pos_bound (pair (registers snapshot) r) 65536). lia.
Qed.

End MoreSnapshots.

(** ** The trap handler, for every block *)

Lemma with_carry_range success af :
  0 <= af < 65536 -> 0 <= with_carry success af < 65536.
Proof.
  intros Haf. destruct success; unfold with_carry.
  - rewrite <- (carry_set_range af Haf). apply Z.mod_pos_bound. lia.
  - rewrite <- (carry_clear_range af Haf). apply Z.mod_pos_bound. lia.
Qed.

Lemma is_Uint16Array_insert n a (i : nat) v :
  is_Uint16Array n a = true -> 0 <= v < 65536 ->
  is_Uint16Array n (<[i := v]> a) = true.
Proof.
  unfold is_Uint16Array. intros H Hv. apply andb_prop in H as [Hlen Hall].
  apply andb_true_intro. split; [by rewrite length_insert|].
  rewrite forallb_forall in Hall. apply forallb_forall. intros x Hin.
  apply list_elem_of_In, list_elem_of_lookup in Hin as [j Hj].
  apply list_lookup_insert_Some in Hj as [(_ & <- & _)|(_ & Hj)].
  - apply andb_true_intro. split; [apply Z.leb_le|apply Z.ltb_lt]; lia.
  - apply Hall, list_elem_of_In, list_elem_of_lookup. eauto.
Qed.

(** The pokes of a trap are those of an initial part of the block's
    bytes after the type byte, no longer than the count in DE. *)
Lemma loadBlock_pokes block c :
  is_Uint16Array 12 (registerPairs c) = true ->
  exists success n,
    (n <= Z.to_nat (typed_get (registerPairs c) 2))%nat
    /\ loadBlock block c
       = trap_result success
           (payload_pokes (typed_get (registerPairs c) 8) (take n (drop 1 block))) c.
Proof.
  intros Hregs.
  destruct (decide (block !! 0%nat = Some (Z.shiftr (typed_get (registerPairs c) 4) 8)))
    as [Htype|Htype].
  - destruct (Z.eq_dec (Z.land (typed_get (registerPairs c) 4) 1) 0) as [Hverify|Hload].
    + exists true, 0%nat. split; [lia|]. by apply loadBlock_verify.
    + eexists _, _. split; [|by apply loadBlock_load]. lia.
  - exists false, 0%nat. split; [lia|]. by apply loadBlock_mismatch.
Qed.

Section MoreTrap.

Context {Tape : Type} (env : Imports Tape).

(** X6: the trap handler keeps the register pairs a 12-element array of
    16-bit values, with or without a tape and whatever the block. *)
Theorem trapTapeLoad_keeps_register_array (w : Worker) :
  is_Uint16Array 12 (registerPairs (core w)) = true ->
  is_Uint16Array 12 (registerPairs (core (trapTapeLoad env w))) = true.
Proof.
  intros Hregs. unfold trapTapeLoad.
  destruct (tape w) as [t|]; [|done].
  destruct (getNextLoadableBlock env t) as [[block|] t']; [|done]. simpl.
  destruct (loadBlock_cases block (core w) Hregs) as (success & payload & ->). simpl.
  apply is_Uint16Array_insert; [done|].
  apply with_carry_range. by eapply is_Uint16Array_range.
Qed.

(** X7: for every block the carry flag after the trap is set exactly
    when the block's first byte is the expected type and either VERIFY
    was asked or the byte after the requested payload exists and equals
    the XOR of the type byte with that payload. *)
Theorem trapTapeLoad_carry_decision (w : Worker) t t' block :
  tape w = Some t ->
  getNextLoadableBlock env t = (Some block, t') ->
  is_Uint16Array 12 (registerPairs (core w)) = true ->
  let de := typed_get (registerPairs (core w)) 2 in
  let af_ := typed_get (registerPairs (core w)) 4 in
  let payload := take (Z.to_nat de) (drop 1 block) in
  Z.testbit (typed_get (registerPairs (core (trapTapeLoad env w))) 0) 0 = true
  <-> block !! 0%nat = Some (Z.shiftr af_ 8)
      /\ (Z.testbit af_ 0 = false
          \/ block !! S (Z.to_nat de) = Some (xor_checksum (Z.shiftr af_ 8) payload)).
Proof.
  intros Ht Hb Hregs de af_ payload.
  rewrite (trapTapeLoad_block env w t t' block Ht Hb). cbn [core with_core].
  destruct (decide (block !! 0%nat = Some (Z.shiftr af_ 8))) as [Htype|Htype].
  - destruct (Z.testbit af_ 0) eqn:Hbit.
    + rewrite loadBlock_load; [|done|done|rewrite land_1_testbit; fold af_; by rewrite Hbit].
      cbv zeta. rewrite trap_result_carry by done. fold de. fold payload. fold af_.
      rewrite bool_decide_eq_true. split; [auto|]. by intros [_ [|]].
    + rewrite loadBlock_verify; [|done|done|rewrite land_1_testbit; fold af_; by rewrite Hbit].
      rewrite trap_result_carry by done. split; auto.
  - rewrite loadBlock_mismatch by done. rewrite trap_result_carry by done.
    split; [done|]. by intros [? _].
Qed.

(** X8: a LOAD of a block of the expected type succeeds exactly when the
    block has at least count + 2 bytes and the XOR of its first
    count + 2 bytes (type byte, payload, checksum byte) is zero. *)
Theorem trapTapeLoad_load_parity (w : Worker) t t' block :
  tape w = Some t ->
  getNextLoadableBlock env t = (Some block, t') ->
  is_Uint16Array 12 (registerPairs (core w)) = true ->
  let de := typed_get (registerPairs (core w)) 2 in
  let af_ := typed_get (registerPairs (core w)) 4 in
  Z.testbit af_ 0 = true ->
  block !! 0%nat = Some (Z.shiftr af_ 8) ->
  Z.testbit (typed_get (registerPairs (core (trapTapeLoad env w))) 0) 0 = true
  <-> (Z.to_nat de + 2 <= length block)%nat
      /\ foldl Z.lxor 0 (take (Z.to_nat de + 2) block) = 0.
Proof.
  intros Ht Hb Hregs de af_ Hload Htype.
  rewrite (trapTapeLoad_carry_decision w t t' block Ht Hb Hregs).
  fold de. fold af_. rewrite Hload.
  set (count := Z.to_nat de). set (expected := Z.shiftr af_ 8) in *.
  destruct block as [|b0 rest]; [done|]. injection Htype as ->.
  simpl drop. change (_ :: rest) with ([expected] ++ rest).
  assert (forall x, rest !! count = Some x ->
            foldl Z.lxor 0 (take (count + 2) ([expected] ++ rest))
            = Z.lxor (xor_checksum expected (take count rest)) x) as Hfold.
  { intros x Hx. replace (count + 2)%nat with (S (S count)) by lia. simpl.
    rewrite (take_S_r _ _ _ Hx), foldl_app. reflexivity. }
  split.
  - intros [_ [|Hsum]]; [done|]. simpl in Hsum.
    split; [apply lookup_lt_Some in Hsum; simpl; lia|].
    rewrite (Hfold _ Hsum). apply Z.lxor_nilpotent.
  - intros [Hlen Hzero]. split; [done|]. right. simpl in Hlen. simpl.
    destruct (rest !! count) as [x|] eqn:Hx; [|apply lookup_ge_None in Hx; lia].
    rewrite (Hfold _ eq_refl) in Hzero. apply Z.lxor_eq in Hzero. by subst.
Qed.

(** X9: whatever the block, the trap pokes at most as many bytes as DE
    asks for and never more than the block has after its type byte; the
    i-th poke writes the block byte at offset i + 1 to the address
    (IX + i) mod 65536, which is a 16-bit address. *)
Theorem trapTapeLoad_pokes (w : Worker) t t' block :
  tape w = Some t ->
  getNextLoadableBlock env t = (Some block, t') ->
  is_Uint16Array 12 (registerPairs (core w)) = true ->
  let de := typed_get (registerPairs (core w)) 2 in
  let ix := typed_get (registerPairs (core w)) 8 in
  exists pokes af',
    actions (core (trapTapeLoad env w))
    = actions (core w) ++ pokes ++ [RegisterWrite 0 af'; SetPC 0x05e2]
    /\ Z.of_nat (length pokes) <= de
    /\ (length pokes <= length block - 1)%nat
    /\ forall (i : nat) a,
         pokes !! i = Some a ->
         exists byte,
           block !! S i = Some byte
           /\ a = Poke ((ix + Z.of_nat i) mod 65536) byte
           /\ 0 <= (ix + Z.of_nat i) mod 65536 < 65536.
Proof.
  intros Ht Hb Hregs de ix.
  rewrite (trapTapeLoad_block env w t t' block Ht Hb). simpl.
  destruct (loadBlock_pokes block (core w) Hregs) as (success & n & Hn & ->).
  fold de in Hn. fold ix.
  pose proof (is_Uint16Array_range _ _ 2%nat Hregs) as Hde. fold de in Hde.
  eexists _, _. split; [reflexivity|].
  rewrite payload_pokes_length, length_take, length_drop.
  split; [lia|]. split; [lia|].
  intros i a Hi. unfold payload_pokes in Hi. rewrite list_lookup_imap in Hi.
  destruct (take n (drop 1 block) !! i) as [byte|] eqn:Hbyte; [|done].
  injection Hi as <-. exists byte.
  apply lookup_take_Some in Hbyte as [Hbyte _]. rewrite lookup_drop in Hbyte.
  split; [done|]. split; [done|]. apply Z.mod_pos_bound. lia.
Qed.

End MoreTrap.

(** ** What a frame does to the core *)

Lemma copyBlock_actions remaining block offset addr checksum c :
  exists pokes,
    forallb is_Poke pokes = true
    /\ actions (copyBlock remaining block offset addr checksum c).2 = actions c ++ pokes.
Proof.
  revert offset addr checksum c.
  induction remaining as [|n IH]; intros offset addr checksum c; simpl.
  - exists []. by rewrite app_nil_r.
  - destruct (block !! offset) as [byte|]; simpl.
    + destruct (IH (S offset) (Z.land (addr + 1) 65535) (Z.lxor checksum byte)
                  (core_poke addr byte c)) as (pokes & Hp & ->).
      exists (Poke addr byte :: pokes). split; [done|].
      simpl. by rewrite <- app_assoc.
    + exists []. by rewrite app_nil_r.
Qed.

Lemma forallb_pokes_trap pokes :
  forallb is_Poke pokes = true -> forallb is_trap_action pokes = true.
Proof.
  intros H. rewrite forallb_forall in H. apply forallb_forall. intros a Ha.
  apply H in Ha. by destruct a.
Qed.

(** Whatever the register pairs hold, a trap on a block only pokes,
    stores AF and sets the program counter to 0x05E2. *)
Lemma loadBlock_actions block c :
  exists l,
    forallb is_trap_action l = true
    /\ actions (loadBlock block c) = actions c ++ l.
Proof.
  assert (forall (success : bool) c1 pokes,
            forallb is_Poke pokes = true ->
            actions c1 = actions c ++ pokes ->
            exists l,
              forallb is_trap_action l = true
              /\ actions (core_setPC 0x05e2
                            (if success
                             then set_registerPair 0 (Z.lor (typed_get (registerPairs c1) 0) 1) c1
                             else set_registerPair 0
                                    (Z.land (typed_get (registerPairs c1) 0) 0xfffe) c1))
                 = actions c ++ l) as Hfinish.
  { intros success c1 pokes Hp Hact.
    destruct success; simpl; rewrite Hact, <- !app_assoc;
      (eexists; split; [|reflexivity]);
      rewrite forallb_app; apply andb_true_intro; (split; [by apply forallb_pokes_trap|done]). }
  unfold loadBlock. cbv zeta.
  destruct (block !! 0%nat) as [actual|]; [|apply (Hfinish false c []); [done|by rewrite app_nil_r]].
  destruct (negb (_ =? actual)); [apply (Hfinish false c []); [done|by rewrite app_nil_r]|].
  destruct (negb (_ =? 0)); [|apply (Hfinish true c []); [done|by rewrite app_nil_r]].
  destruct (copyBlock_actions (Z.to_nat (typed_get (registerPairs c) 2)) block 1
              (typed_get (registerPairs c) 8) actual c) as (pokes & Hp & Hact).
  destruct (copyBlock _ _ _ _ _ _) as [[[success offset] checksum] c1]. simpl in Hact.
  destruct (success && _); [|by apply (Hfinish false c1 pokes)].
  destruct (block !! offset) as [e|];
    [by apply (Hfinish (checksum =? e) c1 pokes)|by apply (Hfinish false c1 pokes)].
Qed.

Section MoreDispatcher.

Context {Tape : Type} (env : Imports Tape).

Lemma trapTapeLoad_actions (w : Worker) :
  exists l,
    forallb is_trap_action l = true
    /\ actions (core (trapTapeLoad env w)) = actions (core w) ++ l.
Proof.
  unfold trapTapeLoad.
  destruct (tape w) as [t|]; [|exists []; by rewrite app_nil_r].
  destruct (getNextLoadableBlock env t) as [[block|] t'];
    [|exists []; by rewrite app_nil_r].
  apply loadBlock_actions.
Qed.

Lemma frameLoop_actions fuel status (w w' : Worker) o :
  frameLoop env fuel status w = Some (w', o) ->
  exists l,
    forallb is_trap_action l = true
    /\ actions (core w') = actions (core w) ++ l.
Proof.
  revert status w. induction fuel as [|fuel IH]; intros status w; simpl;
    destruct (status =? 0); try (intros [= <- <-]; exists []; by rewrite app_nil_r);
    destruct (status =? 1); try (intros [= <- <-]; exists []; by rewrite app_nil_r);
    destruct (status =? 2); try (intros [= <- <-]; exists []; by rewrite app_nil_r);
    try done.
  destruct (trapTapeLoad_actions w) as (l1 & Hl1 & Hact1).
  unfold engine. destruct (core_resumeFrame env _) as [[status' m] r].
  intros H. apply IH in H as (l2 & Hl2 & Hact2). simpl in Hact2.
  exists (l1 ++ ResumeFrame :: l2). split.
  - rewrite forallb_app. apply andb_true_intro. by split.
  - rewrite Hact2, Hact1, <- !app_assoc. done.
Qed.

Lemma completeFrame_keeps req (w : @Worker Tape) :
  core (completeFrame env req w).1 = core w
  /\ stopped (completeFrame env req w).1 = stopped w
  /\ workerFrameData (completeFrame env req w).1 = workerFrameData w.
Proof.
  unfold completeFrame.
  destruct (typed_set _ _ _) as [frameData|]; [|done].
  destruct (audioBuffers req) as [[left right]|]; [|done].
  destruct (negb _); [|done]. by destruct (copyAudio _ _ _ _).
Qed.

(** X10: a run-frame request on a worker that is not stopped first tells
    the core the number of audio samples (a quarter of the left buffer's
    byte length, or 0 without audio buffers), then calls [runFrame];
    whatever it does to the core after that, until the request is
    handled, is a poke, a store to AF, [setPC(0x05e2)] or
    [resumeFrame]. *)
Theorem runFrame_actions fuel req (w w' : Worker) o :
  stopped w = false ->
  onmessage env fuel (MsgRunFrame req) w = Some (w', o) ->
  exists l,
    forallb is_trap_action l = true
    /\ actions (core w')
       = actions (core w)
         ++ [SetAudioSamplesPerFrame (announced_samples req); RunFrame] ++ l.
Proof.
  intros Hst. simpl. unfold handleRunFrame. rewrite Hst. fold (announced_samples req).
  unfold engine. simpl. destruct (core_runFrame env _) as [[status m] r].
  destruct (frameLoop env fuel status _) as [[w3 o3]|] eqn:Hloop; [|done].
  apply frameLoop_actions in Hloop as (l & Hl & Hact). simpl in Hact.
  destruct o3 as [|e].
  - destruct (completeFrame_keeps req w3) as (Hc & _).
    destruct (completeFrame env req w3) as [w4 o4]. simpl in Hc.
    intros [= <- <-]. exists l. split; [done|]. by rewrite Hc, Hact, <- !app_assoc.
  - intros [= <- <-]. exists l. split; [done|]. by rewrite Hact, <- !app_assoc.
Qed.

Lemma on_core_keeps_view (s : Step) (w : @Worker Tape) :
  workerFrameData (on_core s w).1 = workerFrameData w.
Proof. unfold on_core. by destruct (s (core w)). Qed.

(** X11: every message other than a run-frame request is handled without
    a response: nothing is posted, the stopped flag keeps its value, and
    the handling ends whatever the core does. *)
Theorem other_messages_post_nothing fuel m (w : Worker) :
  is_MsgRunFrame m = false ->
  exists w' o,
    onmessage env fuel m w = Some (w', o)
    /\ posted w' = posted w
    /\ stopped w' = stopped w
    /\ workerFrameData w' = workerFrameData w.
Proof.
  intros Hm.
  assert (forall s : Step, exists w' o,
            Some (on_core s w) = Some (w', o)
            /\ posted w' = posted w /\ stopped w' = stopped w
            /\ workerFrameData w' = workerFrameData w) as Hcore.
  { intros s. destruct (on_core_keeps s w) as [Hs Hp].
    pose proof (on_core_keeps_view s w) as Hv.
    destruct (on_core s w) as [w' o]. simpl in *. by exists w', o. }
  destruct m; simpl; try done; try apply Hcore; by eexists _, _.
Qed.

(** X12: the worker becomes stopped in one way only: in the handling of
    a run-frame request the core returned, from [runFrame] or from a
    [resumeFrame] after some tape traps, a status other than 0 and 2;
    the handler threw for that status and nothing was posted for the
    request.  In particular a [RangeError] does not stop the worker. *)
Theorem stops_only_on_fatal_status fuel m (w w' : Worker) o :
  stopped w = false ->
  onmessage env fuel m w = Some (w', o) ->
  stopped w' = true ->
  exists req n,
    m = MsgRunFrame req
    /\ (n <= fuel)%nat
    /\ trap_hits env n (frame_start env req w) = true
    /\ (after_traps env n (frame_start env req w)).1 <> 0
    /\ (after_traps env n (frame_start env req w)).1 <> 2
    /\ o = Threw (exn_of_status (after_traps env n (frame_start env req w)).1)
    /\ w' = with_stopped true (after_traps env n (frame_start env req w)).2
    /\ posted w' = posted w.
Proof.
  intros Hst Hrun Hst'.
  destruct (is_MsgRunFrame m) eqn:Hm.
  - destruct m; try done. exists req. cbn [onmessage] in Hrun.
    unfold handleRunFrame in Hrun. rewrite Hst in Hrun.
    change (engine RunFrame (core_runFrame env) _) with (frame_start env req w) in Hrun.
    pose proof (engine_keeps RunFrame (core_runFrame env)
                  (with_core (log (SetAudioSamplesPerFrame (announced_samples req)) (core w)) w))
      as (Hs2 & Hp2 & _).
    change (engine RunFrame (core_runFrame env) _) with (frame_start env req w) in Hs2, Hp2.
    destruct (frame_start env req w) as [status w2]. cbn [snd with_core stopped posted] in Hs2, Hp2.
    destruct (frameLoop env fuel status w2) as [[w3 [|e]]|] eqn:Hloop; [| |done].
    + apply frameLoop_spec in Hloop as (_ & _ & Hs3).
      destruct (completeFrame_keeps req w3) as (_ & Hs4 & _).
      injection Hrun as Hrun. rewrite Hrun in Hs4. simpl in Hs4. congruence.
    + apply frameLoop_spec in Hloop as Hkeeps. destruct Hkeeps as (Hp3 & _).
      apply frameLoop_trace in Hloop as (n & Hn & Hhits & H0 & H2 & -> & ->).
      injection Hrun as <- <-. exists n. repeat split; try done.
      by rewrite Hp3, Hp2.
  - destruct (other_messages_post_nothing fuel m w Hm) as (w'' & o'' & Hrun' & _ & Hs & _).
    rewrite Hrun in Hrun'. injection Hrun' as <- <-. congruence.
Qed.

(** One message posts nothing or, for a run-frame request that returns,
    one frame-completed message. *)
Lemma onmessage_posted fuel m (w w' : Worker) o :
  onmessage env fuel m w = Some (w', o) ->
  posted w' = posted w
  \/ (is_MsgRunFrame m = true /\ o = Returned
      /\ exists frameData audio, posted w' = posted w ++ [FrameCompleted frameData audio]).
Proof.
  intros Hrun. destruct (is_MsgRunFrame m) eqn:Hm.
  - destruct m; try done. destruct (stopped w) eqn:Hst.
    + simpl in Hrun. unfold handleRunFrame in Hrun. rewrite Hst in Hrun.
      injection Hrun as <- <-. by left.
    + destruct o as [|e].
      * right. destruct (handleRunFrame_completed env fuel req w w' Hst Hrun)
          as (frameData & audio & Hp & _). eauto.
      * left. simpl in Hrun. unfold handleRunFrame in Hrun. rewrite Hst in Hrun.
        set (w1 := with_core _ w) in Hrun.
        pose proof (engine_keeps RunFrame (core_runFrame env) w1) as (_ & Hp2 & _).
        destruct (engine _ _ _) as [status w2]. simpl in Hp2.
        destruct (frameLoop env fuel status w2) as [[w3 [|e3]]|] eqn:Hloop; [| |done].
        -- apply frameLoop_spec in Hloop as (Hp3 & _).
           unfold completeFrame in Hrun.
           destruct (typed_set _ _ _) as [frameData|];
             [|injection Hrun as <- <-; by rewrite Hp3, Hp2].
           destruct (audioBuffers req) as [[left right]|]; [|done].
           destruct (negb _); [|done].
           destruct (copyAudio _ _ _ _); [done|].
           injection Hrun as <- <-. by rewrite Hp3, Hp2.
        -- apply frameLoop_spec in Hloop as (Hp3 & _).
           injection Hrun as <- <-. by rewrite Hp3, Hp2.
  - left. destruct (other_messages_post_nothing fuel m w Hm) as (w'' & o'' & Hrun' & Hp & _).
    rewrite Hrun in Hrun'. by injection Hrun' as <- <-.
Qed.

(** X13: whatever messages a queue holds, the worker posts only
    frame-completed messages for it, after those it had posted, and at
    most one for each run-frame request; the ready message is not posted
    again. *)
Theorem responses_follow_requests fuel ms (w w' : Worker) :
  process env fuel ms w = Some w' ->
  exists frames,
    posted w' = posted w ++ frames
    /\ forallb is_FrameCompleted frames = true
    /\ (length frames <= length (List.filter is_MsgRunFrame ms))%nat.
Proof.
  revert w. induction ms as [|m ms IH]; intros w; simpl.
  - intros [= <-]. exists []. by rewrite app_nil_r.
  - destruct (onmessage env fuel m w) as [[w1 o]|] eqn:Hm; [|done].
    intros Hrest. apply IH in Hrest as (frames & Hp & Hall & Hlen).
    apply onmessage_posted in Hm as [Hsame|(Hrf & _ & frameData & audio & Hnew)].
    + exists frames. rewrite Hp, Hsame. split; [done|]. split; [done|].
      destruct (is_MsgRunFrame m); simpl; lia.
    + exists (FrameCompleted frameData audio :: frames).
      rewrite Hp, Hnew, <- app_assoc. split; [done|]. split; [done|].
      rewrite Hrf. simpl. lia.
Qed.

(** X14: when no tape is attached the trap handler leaves the program
    counter alone, so with a core that reports the tape trap again on
    every resume the frame loop keeps resuming: no number of rounds ends
    it. *)
Theorem frameLoop_no_tape_never_ends fuel (w : Worker) :
  tape w = None ->
  (forall c, (core_resumeFrame env c).1.1 = 2) ->
  frameLoop env fuel 2 w = None.
Proof.
  intros Ht Hcore. revert w Ht.
  induction fuel as [|fuel IH]; intros w Ht; [done|].
  simpl. unfold trapTapeLoad. rewrite Ht. unfold engine.
  specialize (Hcore (core w)).
  destruct (core_resumeFrame env (core w)) as [[status m] r]. simpl in Hcore. subst status.
  by apply IH.
Qed.

End MoreDispatcher.

(** ** The buffers of a frame-completed message *)

Lemma typed_set_0_Some target source result :
  typed_set target source 0 = Some result ->
  (length source <= length target)%nat
  /\ result = source ++ drop (length source) target.
Proof.
  unfold typed_set. intros H.
  destruct (Z.ltb_spec (Z.of_nat (length target)) (0 + Z.of_nat (length source)));
    simplify_eq/=.
  split; [lia|done].
Qed.

Lemma f32_region_Some buffer byteOffset n region :
  0 <= n ->
  f32_region buffer byteOffset n = Some region ->
  byteOffset mod 4 = 0
  /\ 0 <= byteOffset
  /\ byteOffset + 4 * n <= Z.of_nat (length buffer)
  /\ region = take (Z.to_nat (4 * n)) (drop (Z.to_nat byteOffset) buffer)
  /\ length region = Z.to_nat (4 * n).
Proof.
  unfold f32_region. intros Hn H.
  destruct (Z.eqb_spec (byteOffset mod 4) 0); [|done].
  destruct (Z.ltb_spec byteOffset 0); [done|].
  destruct (Z.ltb_spec (Z.of_nat (length buffer)) (byteOffset + 4 * n)); simplify_eq/=.
  repeat split; try done. rewrite length_take, length_drop. lia.
Qed.

Section MoreFrames.

Context {Tape : Type} (env : Imports Tape).

(** What the two audio copies need in order not to throw, and what they
    give. *)
Lemma copyAudio_Some (mem l r l' r' : bytes) :
  copyAudio env mem l r = Some (l', r') ->
  Z.of_nat (length l) mod 4 = 0
  /\ Z.of_nat (length r) mod 4 = 0
  /\ (length l <= length r)%nat
  /\ AUDIO_BUFFER_LEFT env mod 4 = 0
  /\ AUDIO_BUFFER_RIGHT env mod 4 = 0
  /\ 0 <= AUDIO_BUFFER_LEFT env
  /\ AUDIO_BUFFER_LEFT env + Z.of_nat (length l) <= Z.of_nat (length mem)
  /\ 0 <= AUDIO_BUFFER_RIGHT env
  /\ AUDIO_BUFFER_RIGHT env + Z.of_nat (length l) <= Z.of_nat (length mem)
  /\ l' = take (length l) (drop (Z.to_nat (AUDIO_BUFFER_LEFT env)) mem)
  /\ r' = take (length l) (drop (Z.to_nat (AUDIO_BUFFER_RIGHT env)) mem)
          ++ drop (length l) r.
Proof.
  unfold copyAudio. cbv zeta. intros H.
  assert (0 <= Z.of_nat (length l) / 4) as Hn by (apply Z.div_pos; lia).
  destruct (f32_region mem (AUDIO_BUFFER_LEFT env) _) as [leftSource|] eqn:EL; [|done].
  destruct (f32_region mem (AUDIO_BUFFER_RIGHT env) _) as [rightSource|] eqn:ER; [|done].
  simpl in H. unfold f32_whole in H.
  destruct (Z.eqb_spec (Z.of_nat (length l) mod 4) 0) as [Hl|]; [|done].
  destruct (Z.eqb_spec (Z.of_nat (length r) mod 4) 0) as [Hr|]; [|done].
  simpl in H.
  destruct (typed_set l leftSource 0) as [left|] eqn:SL; [|done].
  destruct (typed_set r rightSource 0) as [right|] eqn:SR; [|done].
  simpl in H. injection H as <- <-.
  assert (4 * (Z.of_nat (length l) / 4) = Z.of_nat (length l)) as H4
    by (pose proof (Z.div_mod (Z.of_nat (length l)) 4); lia).
  apply (f32_region_Some _ _ _ _ Hn) in EL as (HLa & HL0 & HLb & -> & HLlen).
  apply (f32_region_Some _ _ _ _ Hn) in ER as (HRa & HR0 & HRb & -> & HRlen).
  apply typed_set_0_Some in SL as [_ ->]. apply typed_set_0_Some in SR as [HSR ->].
  rewrite H4 in *. rewrite Nat2Z.id in *.
  rewrite HLlen, HRlen in *. rewrite drop_all, app_nil_r.
  repeat split; try done; lia.
Qed.

(** X15: the buffers of a frame-completed message have the byte lengths
    of the buffers of the request they answer. *)
Theorem frameCompleted_sizes fuel req (w w' : Worker) :
  stopped w = false ->
  onmessage env fuel (MsgRunFrame req) w = Some (w', Returned) ->
  exists frameData audio,
    posted w' = posted w ++ [FrameCompleted frameData audio]
    /\ length frameData = length (frameBuffer req)
    /\ match audio with
       | None => True
       | Some (l', r') =>
           exists l r,
             audioBuffers req = Some (l, r)
             /\ length l' = length l /\ length r' = length r
       end.
Proof.
  intros Hst Hrun.
  destruct (handleRunFrame_completed env fuel req w w' Hst Hrun)
    as (frameData & audio & Hp & Hset & Haudio).
  exists frameData, audio. split; [done|].
  split; [by eapply typed_set_length|].
  destruct audio as [[l' r']|]; [|done].
  destruct (audioBuffers req) as [[l r]|]; [|done].
  destruct (length l =? 0)%nat; [done|]. symmetry in Haudio.
  apply copyAudio_Some in Haudio
    as (_ & _ & Hlr & _ & _ & HL0 & HLb & HR0 & HRb & -> & ->).
  exists l, r. split; [done|].
  rewrite length_app, !length_take, !length_drop. lia.
Qed.

(** X16: when a run-frame request with a left audio buffer of non-zero
    length is answered, both posted audio buffers start with as many
    bytes as the left buffer has, taken from the core's memory at
    AUDIO_BUFFER_LEFT and AUDIO_BUFFER_RIGHT; what the right buffer has
    beyond that length is sent back as it came.  A response is only
    posted when both lengths are multiples of 4 and the right buffer is
    at least as long as the left one. *)
Theorem frameCompleted_audio fuel req (w w' : Worker) (l r : bytes) :
  stopped w = false ->
  audioBuffers req = Some (l, r) ->
  l <> [] ->
  onmessage env fuel (MsgRunFrame req) w = Some (w', Returned) ->
  exists frameData,
    posted w'
    = posted w
      ++ [FrameCompleted frameData
            (Some (take (length l)
                        (drop (Z.to_nat (AUDIO_BUFFER_LEFT env)) (memoryData (core w'))),
                   take (length l)
                        (drop (Z.to_nat (AUDIO_BUFFER_RIGHT env)) (memoryData (core w')))
                   ++ drop (length l) r))]
    /\ Z.of_nat (length l) mod 4 = 0
    /\ Z.of_nat (length r) mod 4 = 0
    /\ (length l <= length r)%nat.
Proof.
  intros Hst Hreq Hl Hrun.
  destruct (handleRunFrame_completed env fuel req w w' Hst Hrun)
    as (frameData & audio & Hp & _ & Haudio).
  rewrite Hreq in Haudio.
  destruct (Nat.eqb_spec (length l) 0) as [H0|_]; [by destruct l|].
  destruct audio as [[l' r']|].
  - symmetry in Haudio.
    apply copyAudio_Some in Haudio as (Hl4 & Hr4 & Hlr & _ & _ & _ & _ & _ & _ & -> & ->).
    by exists frameData.
  - simpl in Hrun. unfold handleRunFrame in Hrun. rewrite Hst in Hrun.
    destruct (engine _ _ _) as [status w2].
    destruct (frameLoop env fuel status w2) as [[w3 [|e]]|]; [|done|done].
    destruct (completeFrame_keeps env req w3) as (Hc & _).
    injection Hrun as Hrun. rewrite Hrun in Hc. simpl in Hc. rewrite Hc in Haudio.
    unfold completeFrame in Hrun. rewrite Hreq in Hrun.
    destruct (typed_set _ _ _) as [fd|]; [|done].
    destruct (Nat.eqb_spec (length l) 0) as [H0|_]; [by destruct l|]. simpl in Hrun.
    by rewrite <- Haudio in Hrun.
Qed.

(** X17: a run-frame request whose left audio buffer is empty is
    answered, when the frame completes, by a message without audio
    buffers, as is a request without audio buffers. *)
Theorem frameCompleted_without_audio fuel req (w w' : Worker) :
  stopped w = false ->
  match audioBuffers req with Some (l, _) => l = [] | None => True end ->
  onmessage env fuel (MsgRunFrame req) w = Some (w', Returned) ->
  exists frameData, posted w' = posted w ++ [FrameCompleted frameData None].
Proof.
  intros Hst Hreq Hrun.
  destruct (handleRunFrame_completed env fuel req w w' Hst Hrun)
    as (frameData & audio & Hp & _ & Haudio).
  exists frameData. rewrite Hp.
  destruct (audioBuffers req) as [[l r]|]; by subst.
Qed.

(** X18: an open-TRD message copies the first min(length, 0xA0000) bytes
    of the image over the start of the disk buffer and leaves the rest
    of the buffer as it was; the buffer does not shrink, and one of
    0xA0000 bytes keeps that size.  The core, the tape and the stopped
    flag are not touched and nothing is posted. *)
Theorem openTRDFile_copies fuel (data : bytes) (w : Worker) :
  let n := Nat.min (length data) (Z.to_nat 0xa0000) in
  exists w',
    onmessage env fuel (MsgOpenTRDFile data) w = Some (w', Returned)
    /\ take n (trdosDisk w') = take n data
    /\ drop n (trdosDisk w') = drop n (trdosDisk w)
    /\ length (trdosDisk w') = Nat.max n (length (trdosDisk w))
    /\ (n <= Z.to_nat 0xa0000)%nat
    /\ core w' = core w /\ tape w' = tape w
    /\ stopped w' = stopped w /\ posted w' = posted w.
Proof.
  intros n. eexists. split; [reflexivity|]. simpl.
  assert (Z.to_nat (Z.min 655360 (Z.of_nat (length data))) = n) as -> by (unfold n; lia).
  assert (length (take n data) = n) as Hn by (rewrite length_take; unfold n; lia).
  split; [by rewrite take_app_length'|].
  split; [by rewrite drop_app_length'|].
  split; [rewrite length_app, Hn, length_drop; lia|].
  split; [unfold n; lia|done].
Qed.

End MoreFrames.

(** * The further properties at concrete inputs *)

Lemma loadMemoryPage_stores_witness :
  let c := core_with eight_bytes (pairs 0 0 0 0) in
  (0 <= MACHINE_MEMORY paged_imports + 0 * 0x4000
   /\ MACHINE_MEMORY paged_imports + 0 * 0x4000 + Z.of_nat (length [1; 2; 3])
      <= Z.of_nat (length (memoryData c)))
  /\ exists c',
       loadMemoryPage paged_imports 0 [1; 2; 3] c = (c', Returned)
       /\ memoryData c' !! 2%nat = Some 1
       /\ memoryData c' !! 5%nat = Some 15.
Proof.
  intros c.
  assert (0 <= MACHINE_MEMORY paged_imports + 0 * 0x4000) as H0 by (vm_compute; congruence).
  assert (MACHINE_MEMORY paged_imports + 0 * 0x4000 + Z.of_nat (length [1; 2; 3])
          <= Z.of_nat (length (memoryData c))) as H1 by (vm_compute; congruence).
  split; [by split|].
  destruct (loadMemoryPage_stores paged_imports 0 [1; 2; 3] c H0 H1)
    as (c' & Hrun & _ & Hin & Hout & _).
  exists c'. split; [exact Hrun|]. split.
  - exact (Hin 0%nat ltac:(vm_compute; lia)).
  - exact (Hout 5%nat ltac:(right; vm_compute; lia)).
Defined.

Lemma loadMemory_out_of_range_witness :
  let w := small_worker in
  Z.of_nat (length (memoryData (core w)))
    < MACHINE_MEMORY quiet_imports + 1 * 0x4000 + Z.of_nat (length [1; 2; 3])
  /\ onmessage quiet_imports 0 (MsgLoadMemory 1 [1; 2; 3]) w = Some (w, Threw RangeError).
Proof.
  intros w.
  assert (Z.of_nat (length (memoryData (core w)))
          < MACHINE_MEMORY quiet_imports + 1 * 0x4000 + Z.of_nat (length [1; 2; 3])) as H
    by reflexivity.
  split; [exact H|].
  exact (loadMemory_out_of_range quiet_imports 0 1 [1; 2; 3] w (or_intror H)).
Defined.


Lemma loadSnapshot_registers_witness :
  let c := core_with [0; 0; 0; 0] (pairs 0 0 0 0) in
  (pages_fit (MACHINE_MEMORY quiet_imports) (length (memoryData c))
             (memoryPages small_snapshot) = true
   /\ length (registerPairs c) = 12%nat)
  /\ exists c',
       loadSnapshot quiet_imports small_snapshot c = (c', Returned)
       /\ registerPairs c' = [0x1234; 0; 0; 0; 0; 0; 0; 0; 0; 0; 0xffff; 0].
Proof.
  intros c. split; [split; reflexivity|].
  destruct (loadSnapshot_registers quiet_imports small_snapshot c eq_refl eq_refl)
    as (c' & Hrun & Hregs & _).
  exists c'. split; [exact Hrun|exact Hregs].
Defined.

Lemma trapTapeLoad_keeps_register_array_witness :
  let w := worker_with (core_with [] (pairs 0xffff 2 0x0001 0x8000)) (Some [scenario_block]) in
  is_Uint16Array 12 (registerPairs (core w)) = true
  /\ is_Uint16Array 12 (registerPairs (core (trapTapeLoad quiet_imports w))) = true.
Proof.
  intros w. split; [reflexivity|].
  exact (trapTapeLoad_keeps_register_array quiet_imports w eq_refl).
Defined.

Lemma trapTapeLoad_carry_decision_witness :
  let w := worker_with (core_with [] (pairs 0 2 0x0001 0x8000)) (Some [scenario_block]) in
  (tape w = Some [scenario_block]
   /\ next_block [scenario_block] = (Some scenario_block, [])
   /\ is_Uint16Array 12 (registerPairs (core w)) = true)
  /\ Z.testbit (typed_get (registerPairs (core (trapTapeLoad quiet_imports w))) 0) 0 = true.
Proof.
  intros w. split; [repeat split; reflexivity|].
  apply (trapTapeLoad_carry_decision quiet_imports w [scenario_block] [] scenario_block
           eq_refl eq_refl eq_refl).
  split; [reflexivity|]. right. reflexivity.
Defined.

Lemma trapTapeLoad_load_parity_witness :
  let w := worker_with (core_with [] (pairs 0 2 0x0001 0x8000)) (Some [scenario_block]) in
  (tape w = Some [scenario_block]
   /\ next_block [scenario_block] = (Some scenario_block, [])
   /\ is_Uint16Array 12 (registerPairs (core w)) = true
   /\ Z.testbit 0x0001 0 = true
   /\ scenario_block !! 0%nat = Some (Z.shiftr 0x0001 8))
  /\ foldl Z.lxor 0 (take 4 scenario_block) = 0.
Proof.
  intros w. split; [repeat split; reflexivity|].
  apply (trapTapeLoad_load_parity quiet_imports w [scenario_block] [] scenario_block
           eq_refl eq_refl eq_refl eq_refl eq_refl).
  reflexivity.
Defined.

Lemma trapTapeLoad_pokes_witness :
  let w := worker_with (core_with [] (pairs 0 3 0x0001 0xffff)) (Some [scenario_block]) in
  (tape w = Some [scenario_block]
   /\ next_block [scenario_block] = (Some scenario_block, [])
   /\ is_Uint16Array 12 (registerPairs (core w)) = true)
  /\ exists pokes af',
       actions (core (trapTapeLoad quiet_imports w))
       = pokes ++ [RegisterWrite 0 af'; SetPC 0x05e2]
       /\ Z.of_nat (length pokes) <= 3.
Proof.
  intros w. split; [repeat split; reflexivity|].
  destruct (trapTapeLoad_pokes quiet_imports w [scenario_block] [] scenario_block
              eq_refl eq_refl eq_refl) as (pokes & af' & Hact & Hlen & _).
  exists pokes, af'. split; [exact Hact|exact Hlen].
Defined.

Lemma runFrame_actions_witness :
  exists w',
    (stopped small_worker = false
     /\ onmessage quiet_imports 0 (MsgRunFrame audio_request) small_worker
        = Some (w', Returned))
    /\ exists l,
         actions (core w') = [SetAudioSamplesPerFrame 1; RunFrame] ++ l.
Proof.
  eexists. split; [split; reflexivity|].
  destruct (runFrame_actions quiet_imports 0 audio_request small_worker _ Returned
              eq_refl eq_refl) as (l & _ & Hact).
  exists l. exact Hact.
Defined.

Lemma other_messages_post_nothing_witness :
  is_MsgRunFrame MsgReset = false
  /\ exists w' o,
       onmessage quiet_imports 0 MsgReset small_worker = Some (w', o)
       /\ posted w' = [Ready].
Proof.
  split; [reflexivity|].
  destruct (other_messages_post_nothing quiet_imports 0 MsgReset small_worker eq_refl)
    as (w' & o & Hrun & Hp & _).
  exists w', o. split; [exact Hrun|exact Hp].
Defined.

Lemma stops_only_on_fatal_status_witness :
  let env := trap_then_crash_imports in
  let w := worker_with (core_with eight_bytes (pairs 0 2 0x0001 0x8000))
                       (Some [scenario_block]) in
  exists w',
    (stopped w = false
     /\ onmessage env 3 (MsgRunFrame video_request) w = Some (w', Threw UnrecognisedOpcode)
     /\ stopped w' = true)
    /\ exists n,
         (n <= 3)%nat
         /\ trap_hits env n (frame_start env video_request w) = true
         /\ (after_traps env n (frame_start env video_request w)).1 <> 2
         /\ posted w' = [Ready].
Proof.
  intros env w. eexists. split; [repeat split; reflexivity|].
  destruct (stops_only_on_fatal_status env 3 (MsgRunFrame video_request) w _
              (Threw UnrecognisedOpcode) eq_refl eq_refl eq_refl)
    as (req & n & Hm & Hn & Hhits & _ & H2 & _ & _ & Hp).
  injection Hm as <-.
  exists n. split; [exact Hn|]. split; [exact Hhits|]. split; [exact H2|exact Hp].
Defined.

Lemma responses_follow_requests_witness :
  exists w',
    process quiet_imports 0
            [MsgRunFrame video_request; MsgKeyDown 1 2; MsgRunFrame audio_request]
            small_worker
    = Some w'
    /\ exists frames,
         posted w' = [Ready] ++ frames /\ (length frames <= 2)%nat.
Proof.
  eexists. split; [reflexivity|].
  destruct (responses_follow_requests quiet_imports 0
              [MsgRunFrame video_request; MsgKeyDown 1 2; MsgRunFrame audio_request]
              small_worker _ eq_refl) as (frames & Hp & _ & Hlen).
  exists frames. split; [exact Hp|exact Hlen].
Defined.

Lemma frameLoop_no_tape_never_ends_witness :
  (tape small_worker = None
   /\ forall c, (core_resumeFrame trapping_imports c).1.1 = 2)
  /\ frameLoop trapping_imports 100 2 small_worker = None.
Proof.
  assert (forall c, (core_resumeFrame trapping_imports c).1.1 = 2) as H
    by (intros c; reflexivity).
  split; [split; [reflexivity|exact H]|].
  exact (frameLoop_no_tape_never_ends trapping_imports 100 small_worker eq_refl H).
Defined.

Lemma frameCompleted_sizes_witness :
  exists w',
    (stopped small_worker = false
     /\ onmessage quiet_imports 0 (MsgRunFrame audio_request) small_worker
        = Some (w', Returned))
    /\ exists frameData audio,
         posted w' = [Ready] ++ [FrameCompleted frameData audio]
         /\ length frameData = 4%nat.
Proof.
  eexists. split; [split; reflexivity|].
  destruct (frameCompleted_sizes quiet_imports 0 audio_request small_worker _
              eq_refl eq_refl) as (frameData & audio & Hp & Hlen & _).
  exists frameData, audio. split; [exact Hp|exact Hlen].
Defined.

Lemma frameCompleted_audio_witness :
  exists w',
    (stopped small_worker = false
     /\ audioBuffers audio_request = Some ([0; 0; 0; 0], [0; 0; 0; 0])
     /\ [0; 0; 0; 0] <> []
     /\ onmessage quiet_imports 0 (MsgRunFrame audio_request) small_worker
        = Some (w', Returned))
    /\ exists frameData,
         posted w'
         = [Ready; FrameCompleted frameData (Some ([8; 9; 10; 11], [16; 17; 18; 19]))].
Proof.
  assert ([0; 0; 0; 0] <> ([] : bytes)) as Hne by discriminate.
  eexists. split; [split; [reflexivity|split; [reflexivity|split; [exact Hne|reflexivity]]]|].
  destruct (frameCompleted_audio quiet_imports 0 audio_request small_worker _
              [0; 0; 0; 0] [0; 0; 0; 0] eq_refl eq_refl Hne eq_refl)
    as (frameData & Hp & _).
  exists frameData. exact Hp.
Defined.

Lemma frameCompleted_without_audio_witness :
  exists w',
    (stopped small_worker = false
     /\ onmessage quiet_imports 0 (MsgRunFrame silent_request) small_worker
        = Some (w', Returned))
    /\ exists frameData, posted w' = [Ready] ++ [FrameCompleted frameData None].
Proof.
  eexists. split; [split; reflexivity|].
  destruct (frameCompleted_without_audio quiet_imports 0 silent_request small_worker _
              eq_refl eq_refl eq_refl) as (frameData & Hp).
  exists frameData. exact Hp.
Defined.
